(** * front-to-back-router: URI parameter binding and route registration

    A shallow embedding of [UriParameterBinder.ts], [ApplyConfiguration.ts]
    and [Router.ts].  JavaScript strings are byte strings, values are a
    small tagged union, thrown errors are an explicit [result], and the
    objects the code updates in place (the object handed to [bind], a
    route's [extra], route objects held by the router) are threaded
    through or kept in a store. *)

From Stdlib Require Import ZArith String Ascii List Lia Bool.
From Stdlib Require Import DecimalString.
From stdpp Require Import base option list strings gmap.
Import ListNotations.

Set Warnings "-register-all".

(* ===================================================================== *)
(** ** JavaScript values and built-ins used by the sources                *)
(* ===================================================================== *)

(** Plain data values.  Numbers are the integer-valued ones; an object is
    its own enumerable properties in enumeration order, on top of what it
    inherits from [Object.prototype]; a function is known by its name. *)
Inductive value : Type :=
| VUndefined
| VNull
| VBool (b : bool)
| VNum (z : Z)
| VStr (s : string)
| VArr (items : list value)
| VObj (props : list (string * value))
| VFunction (fname : string).

Abbreviation object := (list (string * value)).

(** The classes of the errors thrown in the sources. *)
Inductive error : Type :=
| UriParameterBindingError (msg : string) (previous : option error)
| TypeConversionError (msg : string)
| UriParameterSyntaxError (msg : string)
| RegistrationError (msg : string)
| TypeError (msg : string)
| OtherError (msg : string).

Inductive result (A : Type) : Type :=
| Ok (a : A)
| Throw (e : error).
Arguments Ok {A} a.
Arguments Throw {A} e.

Definition isBindingError (e : error) : bool :=
  match e with UriParameterBindingError _ _ => true | _ => false end.

Definition isTypeConversionError (e : error) : bool :=
  match e with TypeConversionError _ => true | _ => false end.

Module JS.

Definition string_of_nat (n : nat) : string :=
  NilZero.string_of_uint (Nat.to_uint n).

Definition string_of_Z (z : Z) : string :=
  NilZero.string_of_int (Z.to_int z).

(** [typeof v] *)
Definition typeof (v : value) : string :=
  match v with
  | VUndefined => "undefined"
  | VNull => "object"
  | VBool _ => "boolean"
  | VNum _ => "number"
  | VStr _ => "string"
  | VArr _ => "object"
  | VObj _ => "object"
  | VFunction _ => "function"
  end.

(** [String(v)], the conversion a template literal and
    [encodeURIComponent] apply to a value that is not a string. *)
Fixpoint ToString (v : value) : string :=
  match v with
  | VUndefined => "undefined"
  | VNull => "null"
  | VBool true => "true"
  | VBool false => "false"
  | VNum z => string_of_Z z
  | VStr s => s
  | VArr items =>
      (fix join (l : list value) : string :=
         match l with
         | [] => ""
         | x :: rest =>
             let sx := match x with
                       | VUndefined | VNull => ""
                       | _ => ToString x
                       end in
             match rest with
             | [] => sx
             | _ :: _ => sx +:+ "," +:+ join rest
             end
         end) items
  | VObj _ => "[object Object]"
  | VFunction fname => "function " +:+ fname +:+ "() { [native code] }"
  end.

(** What an object literal inherits under [key]: the members of
    [Object.prototype]. *)
Definition inherited (key : string) : value :=
  if String.eqb key "constructor" then VFunction "Object"
  else if String.eqb key "__proto__" then VObj []
  else if existsb (String.eqb key)
            ["hasOwnProperty"; "isPrototypeOf"; "propertyIsEnumerable";
             "toLocaleString"; "toString"; "valueOf";
             "__defineGetter__"; "__defineSetter__";
             "__lookupGetter__"; "__lookupSetter__"]
  then VFunction key
  else VUndefined.

(** [object[key]]: the own property with that key, else the inherited
    member, else [undefined]. *)
Fixpoint get (o : object) (key : string) : value :=
  match o with
  | [] => inherited key
  | (k, v) :: rest => if String.eqb k key then v else get rest key
  end.

(** [delete object[key]] *)
Definition delete (o : object) (key : string) : object :=
  filter (fun kv => negb (String.eqb (fst kv) key)) o.

Definition has (o : object) (key : string) : bool :=
  existsb (fun kv => String.eqb (fst kv) key) o.

(** [Object.assign(target, source)] on the target's contents: every
    property of [source] is written to [target], an existing key keeps
    its place in the enumeration. *)
Fixpoint set (o : object) (key : string) (v : value) : object :=
  match o with
  | [] => [(key, v)]
  | (k, w) :: rest =>
      if String.eqb k key then (k, v) :: rest else (k, w) :: set rest key v
  end.

Definition assign (target source : object) : object :=
  fold_left (fun t kv => set t (fst kv) (snd kv)) source target.

(** [array[index]] *)
Definition index (a : list value) (i : nat) : value :=
  nth i a VUndefined.

(** *** Strings *)

Definition is_unreserved (c : ascii) : bool :=
  let n := nat_of_ascii c in
  ((65 <=? n) && (n <=? 90)) || ((97 <=? n) && (n <=? 122))
  || ((48 <=? n) && (n <=? 57))
  || existsb (Ascii.eqb c)
       ["-"; "_"; "."; "!"; "~"; "*"; "'"; "("; ")"]%char.

Definition hex_digit (n : nat) : ascii :=
  nth n ["0"; "1"; "2"; "3"; "4"; "5"; "6"; "7"; "8"; "9";
         "A"; "B"; "C"; "D"; "E"; "F"]%char "0"%char.

(** [encodeURIComponent] on a well-formed string, byte by byte of its
    UTF-8 form.  A string here is the UTF-8 form of well-formed text: a
    lone surrogate, on which the built-in throws a [URIError], has no
    counterpart among these strings. *)
Fixpoint encodeURIComponent (s : string) : string :=
  match s with
  | EmptyString => ""
  | String c rest =>
      if is_unreserved c then String c (encodeURIComponent rest)
      else
        let n := nat_of_ascii c in
        String "%"%char (String (hex_digit (n / 16))
                      (String (hex_digit (n mod 16))
                         (encodeURIComponent rest)))
  end.

Definition is_space (c : ascii) : bool :=
  let n := nat_of_ascii c in
  ((9 <=? n) && (n <=? 13)) || (n =? 32).

Fixpoint trimStart (s : string) : string :=
  match s with
  | EmptyString => ""
  | String c rest => if is_space c then trimStart rest else s
  end.

Fixpoint trimEnd (s : string) : string :=
  match s with
  | EmptyString => ""
  | String c rest =>
      match trimEnd rest with
      | EmptyString => if is_space c then "" else String c EmptyString
      | r => String c r
      end
  end.

(** [s.trim()], for the ASCII white space. *)
Definition trim (s : string) : string := trimEnd (trimStart s).

(** [s.replace(pattern, replacement)] with a string pattern: the first
    occurrence only.  The replacements of the binder are percent-encoded
    and so hold no [$]. *)
Fixpoint replace (s pattern replacement : string) : string :=
  if String.prefix pattern s
  then replacement +:+ substring (String.length pattern)
                        (String.length s - String.length pattern) s
  else match s with
       | EmptyString => ""
       | String c rest => String c (replace rest pattern replacement)
       end.

(** [s.slice(-1)] and [s.slice(0, -1)] *)
Definition slice_last (s : string) : string :=
  substring (String.length s - 1) 1 s.

Definition slice_init (s : string) : string :=
  substring 0 (String.length s - 1) s.

Definition isEmpty (s : string) : bool :=
  String.length s =? 0.

End JS.

(* ===================================================================== *)
(** ** UriParameterBinder.ts                                              *)
(* ===================================================================== *)

(** [config/UriParameterBinderConfiguration]: the two options the binder
    reads.  The conversion function has the declared type
    [(value) -> string | null]. *)
Module Config.
Record Configuration : Type := {
  bindGetParameters : bool;
  typeConversionFunction : value -> option string
}.
End Config.
Abbreviation Configuration := Config.Configuration.

Record UriParameter : Type := {
  name : string;
  required : bool;
  placeholder : string
}.

(** [UriParameterCollection extends Array<UriParameter>] *)
Abbreviation UriParameterCollection := (list UriParameter).

Module Collection.

(** Modelled from the spec: [getRequired] is only declared in
    [UriParameterCollection.d.ts] ("Get a list of the required uri
    parameters"). *)
Definition getRequired (c : UriParameterCollection) : UriParameterCollection :=
  filter (fun p => required p) c.

(** Modelled from the spec: [getNames] is only declared ("Get names of
    all parameters"). *)
Definition getNames (c : UriParameterCollection) : list string :=
  map name c.

(** Modelled from the spec: [getParameter] is only declared; it "returns
    the first match or a not-found sentinel, never throws". *)
Definition getParameter (c : UriParameterCollection) (n : string)
  : option UriParameter :=
  find (fun p => String.eqb (name p) n) c.

(** Modelled from the spec: the parser is not in the sources.  A
    placeholder is [{name}] or [{name?}]; the trailing [?] marks an
    optional parameter, the whole token is kept as [placeholder], an
    empty name or a missing [}] is a syntax error. *)
Definition makeParameter (inner : string) : result UriParameter :=
  let optional := String.eqb (JS.slice_last inner) "?" in
  let n := if optional then JS.slice_init inner else inner in
  if JS.isEmpty n
  then Throw (UriParameterSyntaxError "Empty parameter name")
  else Ok {| name := n; required := negb optional;
             placeholder := "{" +:+ inner +:+ "}" |}.

Fixpoint scan (s : string) (inside : option string)
  : result UriParameterCollection :=
  match s, inside with
  | EmptyString, None => Ok []
  | EmptyString, Some _ =>
      Throw (UriParameterSyntaxError "Unterminated placeholder")
  | String c rest, None =>
      if Ascii.eqb c "{" then scan rest (Some "") else scan rest None
  | String c rest, Some inner =>
      if Ascii.eqb c "}" then
        match makeParameter inner, scan rest None with
        | Ok p, Ok ps => Ok (p :: ps)
        | Throw e, _ => Throw e
        | _, Throw e => Throw e
        end
      else scan rest (Some (inner +:+ String c EmptyString))
  end.

Definition parseFromUri (uri : string) : result UriParameterCollection :=
  scan uri None.

End Collection.

Module Binder.

Record UriParameterBinder : Type := {
  uri : string;
  parameters : UriParameterCollection;
  configuration : Configuration
}.

(** [new UriParameterBinder(uri, config)] *)
Definition new (uri : string) (config : Configuration)
  : result UriParameterBinder :=
  match Collection.parseFromUri uri with
  | Ok ps => Ok {| uri := uri; parameters := ps; configuration := config |}
  | Throw e => Throw e
  end.

(** The [parameter] argument of [bindParameter]: a name, a parameter, or
    the [undefined] that [this.parameters[0]] is on an empty
    collection. *)
Inductive parameterArg : Type :=
| ByName (n : string)
| ByRef (p : UriParameter)
| NoParameter.

(** [this.parameters[i]] *)
Definition at_index (c : UriParameterCollection) (i : nat) : parameterArg :=
  match nth_error c i with
  | Some p => ByRef p
  | None => NoParameter
  end.

(** What [uriParameter] holds after the first line of [bindParameter]. *)
Inductive resolved : Type :=
| IsParameter (p : UriParameter)
| IsNull
| IsUndefined.

Definition undefined_read (prop : string) : error :=
  TypeError ("Cannot read properties of undefined (reading '"
             +:+ prop +:+ "')").

Section Methods.

Variable this : UriParameterBinder.

(** [removeTrailingSlashes]: the [while] loop, run for at most
    [length uri] rounds (each round drops one character). *)
Fixpoint removeTrailingSlashes_loop (rounds : nat) (uri : string) : string :=
  match rounds with
  | O => uri
  | S rounds' =>
      if String.eqb (JS.slice_last uri) "/"
      then removeTrailingSlashes_loop rounds' (JS.slice_init uri)
      else uri
  end.

Definition removeTrailingSlashes (uri : string) : string :=
  removeTrailingSlashes_loop (String.length uri) uri.

(** [convertToString] reads the binder's own configuration. *)
Definition convertToString (v : value) : result string :=
  match v with
  | VStr s => Ok (JS.trim s)
  | _ =>
      match Config.typeConversionFunction (configuration this) v with
      | None => Throw (UriParameterBindingError "String conversion failed" None)
      | Some s => Ok (JS.trim s)
      end
  end.

Definition resolve (parameter : parameterArg) : resolved :=
  match parameter with
  | ByName n =>
      match Collection.getParameter (parameters this) n with
      | Some p => IsParameter p
      | None => IsNull
      end
  | ByRef p => IsParameter p
  | NoParameter => IsUndefined
  end.

Definition show_parameterArg (parameter : parameterArg) : string :=
  match parameter with
  | ByName n => n
  | ByRef _ => "[object Object]"
  | NoParameter => "undefined"
  end.

(** The tail of [bindParameter], from [const original = value] on. *)
Definition bindResolved (uri : string) (uriParameter : UriParameter)
    (v : value) : result string :=
  let original := v in
  match convertToString v with
  | Throw e =>
      if isTypeConversionError e then
        Throw (UriParameterBindingError
                 ("Cannot bind value for parameter '" +:+ name uriParameter
                  +:+ "', unable to convert " +:+ JS.typeof v
                  +:+ " to string.") (Some e))
      else Throw e
  | Ok s =>
      if required uriParameter && JS.isEmpty s then
        match original with
        | VStr _ =>
            Throw (UriParameterBindingError
                     ("Cannot bind empty string for required parameter "
                      +:+ name uriParameter +:+ ".") None)
        | _ =>
            Throw (UriParameterBindingError
                     ("Cannot bind given " +:+ JS.typeof original
                      +:+ " value for required parameter "
                      +:+ name uriParameter
                      +:+ " because string conversion results in an empty string.")
                     None)
        end
      else
        Ok (removeTrailingSlashes
              (JS.replace uri (placeholder uriParameter)
                 (JS.encodeURIComponent s)))
  end.

Definition bindParameter (uri : string) (parameter : parameterArg)
    (v : value) (config : Configuration) : result string :=
  match resolve parameter with
  | IsNull =>
      Throw (UriParameterBindingError
               ("Cannot bind value to non-existent parameter '"
                +:+ show_parameterArg parameter +:+ "'.") None)
  | IsParameter uriParameter =>
      match v with
      | VUndefined =>
          if required uriParameter then
            Throw (UriParameterBindingError
                     ("Cannot bind missing value for required parameter '"
                      +:+ name uriParameter +:+ "'.") None)
          else bindResolved uri uriParameter (VStr "")
      | _ => bindResolved uri uriParameter v
      end
  | IsUndefined =>
      (* every read of [uriParameter.required] throws *)
      match v with
      | VUndefined => Throw (undefined_read "required")
      | _ =>
          match convertToString v with
          | Throw e =>
              if isTypeConversionError e
              then Throw (undefined_read "name")
              else Throw e
          | Ok _ => Throw (undefined_read "required")
          end
      end
  end.

(** [bindGetParameters]: the loop over [Object.entries(values)]. *)
Fixpoint bindGetParameters_loop (uri : string) (entries : object) : string :=
  match entries with
  | [] => uri
  | (key, v) :: rest =>
      let uri1 := if String.eqb uri "" then uri +:+ "?" else uri +:+ "&" in
      bindGetParameters_loop
        (uri1 +:+ JS.encodeURIComponent key +:+ "="
              +:+ JS.encodeURIComponent (JS.ToString v))
        rest
  end.

Definition bindGetParameters (uri : string) (values : object)
    (config : Configuration) : string :=
  bindGetParameters_loop uri values.

(** [bindObject]: the [forEach] over the parameters; the second
    component is the caller's object as the call leaves it. *)
Fixpoint bindObject_loop (ps : UriParameterCollection) (uri : string)
    (obj : object) (config : Configuration) : result string * object :=
  match ps with
  | [] => (Ok uri, obj)
  | parameter :: rest =>
      match bindParameter uri (ByRef parameter)
              (JS.get obj (name parameter)) config with
      | Ok uri' =>
          bindObject_loop rest uri' (JS.delete obj (name parameter)) config
      | Throw e => (Throw e, obj)
      end
  end.

Definition bindObject (uri : string) (obj : object) (config : Configuration)
  : result string * object :=
  match bindObject_loop (parameters this) uri obj config with
  | (Ok uri', obj') =>
      if Config.bindGetParameters config
      then (Ok (bindGetParameters uri' obj' config), obj')
      else (Ok uri', obj')
  | (Throw e, obj') => (Throw e, obj')
  end.

(** [bindArray]: the [forEach] with its index. *)
Fixpoint bindArray_loop (ps : UriParameterCollection) (i : nat)
    (uri : string) (array : list value) (config : Configuration)
  : result string :=
  match ps with
  | [] => Ok uri
  | parameter :: rest =>
      match bindParameter uri (ByRef parameter) (JS.index array i) config with
      | Ok uri' => bindArray_loop rest (S i) uri' array config
      | Throw e => Throw e
      end
  end.

Definition bindArray (uri : string) (array : list value)
    (config : Configuration) : result string :=
  bindArray_loop (parameters this) 0 uri array config.

Definition bindValue (uri : string) (v : value) (config : Configuration)
  : result string :=
  let required := Collection.getRequired (parameters this) in
  if 1 <? length required then
    Throw (UriParameterBindingError
             ("Cannot bind a given " +:+ JS.typeof v
              +:+ " as uri parameters: this type is handled as a plain value and can only be bound to one parameter but there are "
              +:+ JS.string_of_nat (length required)
              +:+ " required parameters.") None)
  else bindParameter uri (at_index (parameters this) 0) v config.

Definition effective (config : option Configuration) : Configuration :=
  match config with
  | Some c => c
  | None => configuration this
  end.

(** [bind]: the result, and [values] as the call leaves it. *)
Definition bind (values : value) (config : option Configuration)
  : result string * value :=
  let configuration := effective config in
  if (length (parameters this) =? 0)
     && negb (Config.bindGetParameters configuration)
  then (Ok (uri this), values)
  else
    match values with
    | VArr array => (bindArray (uri this) array configuration, values)
    | VObj obj =>
        let (r, obj') := bindObject (uri this) obj configuration in
        (r, VObj obj')
    | _ => (bindValue (uri this) values configuration, values)
    end.

(** [canBindObject] on a plain object: the answer (or the error thrown
    on), and the caller's object as the probe leaves it. *)
Definition canBindObject (obj : object) (config : option Configuration)
  : result bool * object :=
  let configuration := effective config in
  match bindObject (uri this) obj configuration with
  | (Ok _, obj') => (Ok true, obj')
  | (Throw e, obj') =>
      if isBindingError e then (Ok false, obj') else (Throw e, obj')
  end.

(** The parameters the [forEach] of [bindObject] gets through before
    it ends or throws: each of them was bound, and its key deleted. *)
Fixpoint boundParameters (ps : UriParameterCollection) (uri : string)
    (obj : object) (config : Configuration) : list UriParameter :=
  match ps with
  | [] => []
  | parameter :: rest =>
      match bindParameter uri (ByRef parameter)
              (JS.get obj (name parameter)) config with
      | Ok uri' =>
          parameter
            :: boundParameters rest uri' (JS.delete obj (name parameter)) config
      | Throw _ => []
      end
  end.

End Methods.

(** The values [bind] hands to [bindValue]: neither array nor object. *)
Definition isScalar (v : value) : bool :=
  match v with
  | VArr _ | VObj _ => false
  | _ => true
  end.

Definition deleteAll (obj : object) (keys : list string) : object :=
  fold_left JS.delete keys obj.

(** What [bindGetParameters] appends to a url that is not empty: every
    pair, the first one too, led by [&]. *)
Definition appendedQuery (entries : object) : string :=
  fold_right
    (fun kv rest =>
       "&" +:+ JS.encodeURIComponent (fst kv) +:+ "="
           +:+ JS.encodeURIComponent (JS.ToString (snd kv)) +:+ rest)
    "" entries.

(** [k] slashes in a row. *)
Fixpoint slashes (k : nat) : string :=
  match k with
  | O => ""
  | S k' => slashes k' +:+ "/"
  end.

(** The object that holds, under the name of each parameter, the element
    of the array at the parameter's position, counted from [i]: a key of
    its own for every parameter, [undefined] past the end of the array. *)
Fixpoint keyed (ps : UriParameterCollection) (i : nat) (array : list value)
  : object :=
  match ps with
  | [] => []
  | p :: ps' => (name p, JS.index array i) :: keyed ps' (S i) array
  end.

(** A conversion function for the examples: decimal digits for numbers,
    [true]/[false] for booleans, [null] for the rest. *)
Definition decimalConversion (v : value) : option string :=
  match v with
  | VNum _ | VBool _ => Some (JS.ToString v)
  | _ => None
  end.

Definition exampleConfiguration (bindGet : bool) : Configuration :=
  {| Config.bindGetParameters := bindGet;
     Config.typeConversionFunction := decimalConversion |}.

End Binder.

(* ===================================================================== *)
(** ** ApplyConfiguration.ts                                              *)
(* ===================================================================== *)

Inductive RequestMethod : Type := GET | POST | PUT | PATCH | DELETE.

Definition method_string (m : RequestMethod) : string :=
  match m with
  | GET => "GET" | POST => "POST" | PUT => "PUT"
  | PATCH => "PATCH" | DELETE => "DELETE"
  end.

Module Middleware.

(** References to the plain objects the middleware passes around (a
    route's [extra], a Uri's [configuration], the configured [extra] and
    [uris]); the store holds their contents. *)
Abbreviation ref := nat.
Abbreviation store := (gmap nat object).

Definition contents (σ : store) (r : ref) : object := default [] (σ !! r).

(** Modelled from the spec: [Uri] is not in the sources; it is
    [{template, parameters, configuration}], parses its template when it
    is built, and [toString] gives the template back. *)
Record Uri : Type := {
  template : string;
  uri_parameters : UriParameterCollection;
  uri_configuration : ref
}.

Definition newUri (uriString : string) (config : ref) : result Uri :=
  match Collection.parseFromUri uriString with
  | Ok ps => Ok {| template := uriString; uri_parameters := ps;
                   uri_configuration := config |}
  | Throw e => Throw e
  end.

Definition Uri_toString (u : Uri) : string := template u.

(** Modelled from the spec: [Route] is not in the sources; it is
    [{name, method, uri, extra}] and its constructor stores what it is
    given. *)
Record Route : Type := {
  route_name : string;
  route_method : RequestMethod;
  route_uri : Uri;
  route_extra : ref
}.

(** [RouteRegistrarConfiguration], as far as [ApplyConfiguration] reads
    it. *)
Record RouteRegistrarConfiguration : Type := {
  prefix : string;
  extra : ref;
  uris : ref
}.

(** [Object.assign(target, source)]: writes into the object [target]
    refers to, and returns [target]. *)
Definition Object_assign (target source : ref) (σ : store) : ref * store :=
  (target, <[target := JS.assign (contents σ target) (contents σ source)]> σ).

Section ApplyConfiguration.

Variable configuration : RouteRegistrarConfiguration.

Definition updateUri (route : Route) (σ : store) : result Uri * store :=
  if 0 <? String.length (prefix configuration) then
    let uriString := prefix configuration +:+ Uri_toString (route_uri route) in
    let (uriConfig, σ1) :=
      Object_assign (uri_configuration (route_uri route))
                    (uris configuration) σ in
    (newUri uriString uriConfig, σ1)
  else (Ok (route_uri route), σ).

Definition apply (route : Route) (σ : store) : result Route * store :=
  match updateUri route σ with
  | (Throw e, σ1) => (Throw e, σ1)
  | (Ok uri, σ1) =>
      let (extra', σ2) :=
        Object_assign (route_extra route) (extra configuration) σ1 in
      (Ok {| route_name := route_name route;
             route_method := route_method route;
             route_uri := uri;
             route_extra := extra' |}, σ2)
  end.

End ApplyConfiguration.

(** What a caller can see of a route: its fields, and the contents of
    the objects it refers to. *)
Definition observe (σ : store) (route : Route)
  : string * RequestMethod * string * object * object :=
  (route_name route, route_method route, Uri_toString (route_uri route),
   contents σ (route_extra route),
   contents σ (uri_configuration (route_uri route))).

End Middleware.

(* ===================================================================== *)
(** ** Router.ts                                                          *)
(* ===================================================================== *)

Module Router.

(** [RouterConfiguration], with its two options. *)
Record ConfigurationInterface : Type := {
  immutable : bool;
  duplicates : bool
}.

Definition defaults : ConfigurationInterface :=
  {| immutable := false; duplicates := false |}.

(** Modelled from the spec: [Route] is not in the sources.  The router
    builds one with [new Route(name, method, url)] and reads [name],
    [method] and [url].  The constructor is taken to return: the urls
    are those whose placeholders are well formed. *)
Record Route : Type := {
  name : string;
  method : RequestMethod;
  url : string
}.

(** Modelled from the spec: [Route.applyPrefix] is not in the sources.
    [registerRoute] drops what it returns, so it updates the route in
    place: the prefix is put in front of the route's url. *)
Definition applyPrefix (r : Route) (prefix : string) : Route :=
  {| name := name r; method := method r; url := prefix +:+ url r |}.

(** Route objects live in a heap; a reference is an index into it, and
    [new Route] takes the next one. *)
Abbreviation ref := nat.

Record Router : Type := {
  routes : gmap string ref;
  config : ConfigurationInterface;
  signatures : gmap string string;
  routePrefix : option string;
  heap : list Route
}.

(** [new Router(config)], among the route objects [h] the caller made. *)
Definition new (cfg : ConfigurationInterface) (h : list Route) : Router :=
  {| routes := ∅; config := cfg; signatures := ∅; routePrefix := None;
     heap := h |}.

Definition with_heap (h : list Route) (s : Router) : Router :=
  {| routes := routes s; config := config s; signatures := signatures s;
     routePrefix := routePrefix s; heap := h |}.

Definition with_routePrefix (p : option string) (s : Router) : Router :=
  {| routes := routes s; config := config s; signatures := signatures s;
     routePrefix := p; heap := heap s |}.

Definition routeSignature (m : RequestMethod) (u : string) : string :=
  method_string m +:+ ":" +:+ u.

Definition immutable_message (n : string) : string :=
  "Route '" +:+ n +:+ "' is already defined and immutable!".

Definition duplicate_message (n oldRoute : string) : string :=
  "Route '" +:+ n +:+ "' is a duplicate of existing route '" +:+ oldRoute
  +:+ "'. If you want to enable multiple aliases for the same url and method combination, set 'duplicates' option as true.".

(** The route as [registerRoute] goes on with it after
    [if(this.routePrefix !== null) route.applyPrefix(this.routePrefix)]. *)
Definition prefixed (s : Router) (route0 : Route) : Route :=
  match routePrefix s with
  | Some p => applyPrefix route0 p
  | None => route0
  end.

(** The two [set] calls that end [registerRoute]. *)
Definition insertRoute (s : Router) (signature : string) (route : Route)
    (l : ref) : Router :=
  {| routes := <[name route := l]> (routes s);
     config := config s;
     signatures := <[signature := name route]> (signatures s);
     routePrefix := routePrefix s;
     heap := heap s |}.

Definition registerRoute (s : Router) (l : ref) : result unit * Router :=
  match heap s !! l with
  | None =>
      (Throw (TypeError "Cannot read properties of undefined (reading 'name')"), s)
  | Some route0 =>
      if immutable (config s) && bool_decide (is_Some (routes s !! name route0))
      then (Throw (RegistrationError (immutable_message (name route0))), s)
      else
        let route := prefixed s route0 in
        let s1 := with_heap (<[l := route]> (heap s)) s in
        let signature := routeSignature (method route) (url route) in
        match signatures s1 !! signature with
        | Some oldRoute =>
            if negb (duplicates (config s1))
            then (Throw (RegistrationError
                           (duplicate_message (name route) oldRoute)), s1)
            else (Ok tt, insertRoute s1 signature route l)
        | None => (Ok tt, insertRoute s1 signature route l)
        end
  end.

Definition register (s : Router) (n : string) (m : RequestMethod) (u : string)
  : result unit * Router :=
  let l := length (heap s) in
  registerRoute
    (with_heap (heap s ++ [{| name := n; method := m; url := u |}]) s) l.

Definition get (s : Router) (n u : string) := register s n GET u.
Definition post (s : Router) (n u : string) := register s n POST u.
Definition put (s : Router) (n u : string) := register s n PUT u.
Definition patch (s : Router) (n u : string) := register s n PATCH u.
Definition delete (s : Router) (n u : string) := register s n DELETE u.

(** [route(name)]: the route object, or [null]. *)
Definition route (s : Router) (n : string) : option ref := routes s !! n.

Definition deref (s : Router) (l : ref) : option Route := heap s !! l.

Definition hasRouteWithName (s : Router) (n : string) : bool :=
  bool_decide (is_Some (routes s !! n)).

(** Modelled from the spec: the [RequestMethod] enumeration is not in
    the sources; its values are taken to be the methods the router's own
    helpers register with. *)
Definition allMethods : list RequestMethod := [GET; POST; PUT; PATCH; DELETE].

(** [hasRouteWithUrl(url, ...methods)]: the [forEach] sets the flag on
    every method whose signature is known (its [return false] ends one
    round, not the loop). *)
Definition hasRouteWithUrl (s : Router) (u : string)
    (methods : list RequestMethod) : bool :=
  let methods := if length methods =? 0 then allMethods else methods in
  fold_left
    (fun hasRoute m =>
       if bool_decide (is_Some (signatures s !! routeSignature m u))
       then true else hasRoute)
    methods false.

(** [prefix(prefix, callback)]; a callback is what it does to the router
    and whether it returns or throws. *)
Definition prefix (p : string) (callback : Router -> result unit * Router)
    (s : Router) : result unit * Router :=
  match callback (with_routePrefix (Some p) s) with
  | (Ok _, s') => (Ok tt, with_routePrefix None s')
  | (Throw e, s') => (Throw e, s')
  end.

(** Callers of the router: programs made of its registration calls,
    run one after the other until one throws. *)
Inductive script : Type :=
| Done
| Register (n : string) (m : RequestMethod) (u : string) (k : script)
| RegisterRoute (l : ref) (k : script)
| Prefix (p : string) (callback : script) (k : script)
| TryCatch (body : script) (k : script)
| Raise (e : error).

Definition andThen (r : result unit * Router)
    (k : Router -> result unit * Router) : result unit * Router :=
  match r with
  | (Ok _, s') => k s'
  | (Throw e, s') => (Throw e, s')
  end.

Fixpoint exec (c : script) (s : Router) : result unit * Router :=
  match c with
  | Done => (Ok tt, s)
  | Register n m u k => andThen (register s n m u) (exec k)
  | RegisterRoute l k => andThen (registerRoute s l) (exec k)
  | Prefix p callback k => andThen (prefix p (exec callback) s) (exec k)
  | TryCatch body k => exec k (snd (exec body s))
  | Raise e => (Throw e, s)
  end.

(** The states a router built with [cfg] can be in. *)
Definition reachable (cfg : ConfigurationInterface) (s : Router) : Prop :=
  exists (h : list Route) (c : script), snd (exec c (new cfg h)) = s.

Definition signatureOf (r : Route) : string :=
  routeSignature (method r) (url r).

(** The invariant of the data model: the entry [n -> r] of [routes] and
    the entry [METHOD:url of r -> n] of [signatures] go together. *)
Definition one_to_one (s : Router) : Prop :=
  (forall n l r, routes s !! n = Some l -> heap s !! l = Some r ->
                 signatures s !! signatureOf r = Some n)
  /\ (forall sig n, signatures s !! sig = Some n ->
        exists l r, routes s !! n = Some l /\ heap s !! l = Some r
                    /\ signatureOf r = sig).

(** The four ways [registerRoute] ends: no such object, the name is
    taken and the router immutable, the signature is taken and
    duplicates are off (the prefix is on the route by then), or both
    maps are written. *)
Inductive registered (s : Router) (l : ref) : result unit * Router -> Prop :=
| registered_dangling :
    heap s !! l = None ->
    registered s l
      (Throw (TypeError "Cannot read properties of undefined (reading 'name')"), s)
| registered_immutable route0 :
    heap s !! l = Some route0 ->
    immutable (config s) = true ->
    is_Some (routes s !! name route0) ->
    registered s l
      (Throw (RegistrationError (immutable_message (name route0))), s)
| registered_duplicate route0 oldRoute :
    heap s !! l = Some route0 ->
    (immutable (config s) = true -> routes s !! name route0 = None) ->
    duplicates (config s) = false ->
    signatures s !! signatureOf (prefixed s route0) = Some oldRoute ->
    registered s l
      (Throw (RegistrationError
                (duplicate_message (name (prefixed s route0)) oldRoute)),
       with_heap (<[l := prefixed s route0]> (heap s)) s)
| registered_ok route0 :
    heap s !! l = Some route0 ->
    (immutable (config s) = true -> routes s !! name route0 = None) ->
    (duplicates (config s) = false ->
     signatures s !! signatureOf (prefixed s route0) = None) ->
    registered s l
      (Ok tt,
       insertRoute (with_heap (<[l := prefixed s route0]> (heap s)) s)
         (signatureOf (prefixed s route0)) (prefixed s route0) l).

(** What holds of the two maps under every configuration: a stored
    reference is a live route object that carries the name it is stored
    under, a signature names a stored route, and the signature of a
    stored route is taken. *)
Definition consistent (s : Router) : Prop :=
  (forall n l, routes s !! n = Some l ->
               exists r, heap s !! l = Some r /\ name r = n)
  /\ (forall sig n, signatures s !! sig = Some n -> is_Some (routes s !! n))
  /\ (forall n l r, routes s !! n = Some l -> heap s !! l = Some r ->
                    is_Some (signatures s !! signatureOf r)).

(** What holds when names cannot be registered again and signatures
    cannot be shared. *)
Definition strict (s : Router) : Prop :=
  (forall n l, routes s !! n = Some l ->
               exists r, heap s !! l = Some r /\ name r = n)
  /\ one_to_one s
  /\ size (routes s) = size (signatures s).

Definition strictly (s : Router) : Prop :=
  immutable (config s) = true /\ duplicates (config s) = false /\ strict s.

(** Callers that leave route objects to the router: no [registerRoute]
    on an object of their own. *)
Fixpoint registersOnly (c : script) : bool :=
  match c with
  | Done => true
  | Register _ _ _ k => registersOnly k
  | RegisterRoute _ _ => false
  | Prefix _ callback k => registersOnly callback && registersOnly k
  | TryCatch body k => registersOnly body && registersOnly k
  | Raise _ => true
  end.

(** With duplicates off and such callers, every stored route owns its
    signature. *)
Definition owned (s : Router) : Prop :=
  duplicates (config s) = false
  /\ (forall n l, routes s !! n = Some l ->
                  exists r, heap s !! l = Some r /\ name r = n)
  /\ (forall n l r, routes s !! n = Some l -> heap s !! l = Some r ->
                    signatures s !! signatureOf r = Some n).

(** The maps only grow: what [s] holds a name or a signature for, [s']
    holds one for. *)
Definition grows (s s' : Router) : Prop :=
  (forall n, is_Some (routes s !! n) -> is_Some (routes s' !! n))
  /\ (forall sig, is_Some (signatures s !! sig) ->
                  is_Some (signatures s' !! sig)).

(** A stored route that does not change: the name resolves to the object
    [l], and the object reads [r]. *)
Definition resolves (n : string) (l : ref) (r : Route) (s : Router) : Prop :=
  route s n = Some l /\ deref s l = Some r.

(** A stored route of an immutable router in a consistent state. *)
Definition kept (n : string) (l : ref) (r : Route) (s : Router) : Prop :=
  immutable (config s) = true /\ consistent s /\ resolves n l r s.

(** The url [register] stores for [u]. *)
Definition prefixedUrl (s : Router) (u : string) : string :=
  match routePrefix s with
  | Some p => p +:+ u
  | None => u
  end.

(** [route(name)] followed by a read of the object. *)
Definition routeNamed (s : Router) (n : string) : option Route :=
  match route s n with
  | Some l => deref s l
  | None => None
  end.

End Router.

(* ===================================================================== *)
(** ** Strings and objects: basic facts                                   *)
(* ===================================================================== *)

Lemma length_substring_le (s : string) (n m : nat) :
  String.length (substring n m s) <= m.
Proof.
  revert n m; induction s as [|c s IH]; intros [|n] [|m]; simpl; try lia.
  - specialize (IH 0 m). lia.
  - apply (IH n 0).
  - apply (IH n (S m)).
Qed.

Lemma length_slice_init (s : string) :
  String.length (JS.slice_init s) <= String.length s - 1.
Proof. apply length_substring_le. Qed.

Lemma slice_last_empty : JS.slice_last "" <> "/".
Proof. discriminate. Qed.

Lemma append_assoc (a b c : string) : (a +:+ b) +:+ c = a +:+ (b +:+ c).
Proof.
  induction a as [|x a IH]; [reflexivity|].
  change (String x ((a +:+ b) +:+ c) = String x (a +:+ (b +:+ c))).
  by rewrite IH.
Qed.

Lemma append_empty_r (a : string) : a +:+ "" = a.
Proof.
  induction a as [|x a IH]; [reflexivity|].
  change (String x (a +:+ "") = String x a). by rewrite IH.
Qed.

Lemma append_nonempty (a b : string) : a <> "" -> a +:+ b <> "".
Proof. destruct a; [congruence | discriminate]. Qed.

Lemma get_delete_ne (o : object) (k k' : string) :
  k <> k' -> JS.get (JS.delete o k) k' = JS.get o k'.
Proof.
  intros Hne. induction o as [|[k0 v0] o IH]; [reflexivity|].
  unfold JS.delete in *. cbn [filter list_filter].
  rewrite decide_bool_decide. cbn [fst].
  destruct (String.eqb_spec k0 k) as [->|Hk]; cbn [negb].
  - rewrite bool_decide_eq_false_2 by (cbn; auto).
    cbn [JS.get]. rewrite (proj2 (String.eqb_neq k k')) by assumption.
    exact IH.
  - rewrite bool_decide_eq_true_2 by (cbn; auto).
    cbn [JS.get]. destruct (String.eqb k0 k'); [reflexivity|exact IH].
Qed.

Lemma get_delete_eq (o : object) (k : string) :
  JS.get (JS.delete o k) k = JS.inherited k.
Proof.
  induction o as [|[k0 v0] o IH]; [reflexivity|].
  unfold JS.delete in *. cbn [filter list_filter].
  rewrite decide_bool_decide. cbn [fst].
  destruct (String.eqb_spec k0 k) as [->|Hk]; cbn [negb].
  - rewrite bool_decide_eq_false_2 by (cbn; auto). exact IH.
  - rewrite bool_decide_eq_true_2 by (cbn; auto).
    cbn [JS.get]. rewrite (proj2 (String.eqb_neq k0 k)) by assumption.
    exact IH.
Qed.

Lemma get_delete_undefined (o : object) (k k' : string) :
  JS.inherited k' = VUndefined ->
  JS.get o k' = VUndefined -> JS.get (JS.delete o k) k' = VUndefined.
Proof.
  intros Hi H. destruct (String.eqb_spec k k') as [->|Hne].
  - by rewrite get_delete_eq.
  - rewrite get_delete_ne; assumption.
Qed.

Lemma has_delete_eq (o : object) (k : string) :
  JS.has (JS.delete o k) k = false.
Proof.
  induction o as [|[k0 v0] o IH]; [reflexivity|].
  unfold JS.delete, JS.has in *. cbn [filter list_filter].
  rewrite decide_bool_decide. cbn [fst].
  destruct (String.eqb_spec k0 k) as [->|Hk]; cbn [negb].
  - rewrite bool_decide_eq_false_2 by (cbn; auto). exact IH.
  - rewrite bool_decide_eq_true_2 by (cbn; auto).
    cbn [existsb fst]. rewrite (proj2 (String.eqb_neq k0 k)) by assumption.
    exact IH.
Qed.

Lemma has_delete_false (o : object) (k k' : string) :
  JS.has o k' = false -> JS.has (JS.delete o k) k' = false.
Proof.
  induction o as [|[k0 v0] o IH]; [reflexivity|].
  unfold JS.delete, JS.has in *. cbn [filter list_filter existsb fst].
  rewrite decide_bool_decide. cbn [fst].
  intros [H1 H2]%orb_false_elim.
  destruct (negb (String.eqb k0 k)).
  - rewrite bool_decide_eq_true_2 by (cbn; auto).
    cbn [existsb fst]. rewrite H1. auto.
  - rewrite bool_decide_eq_false_2 by (cbn; auto). auto.
Qed.

(* ===================================================================== *)
(** ** The binder                                                         *)
(* ===================================================================== *)

Section BinderFacts.

Import Binder.
Variable this : UriParameterBinder.

Lemma removeTrailingSlashes_loop_stops (rounds : nat) (uri : string) :
  String.length uri <= rounds ->
  JS.slice_last (removeTrailingSlashes_loop rounds uri) <> "/".
Proof.
  revert uri; induction rounds as [|rounds IH]; intros uri Hlen; simpl.
  - destruct uri; [apply slice_last_empty | simpl in Hlen; lia].
  - destruct (String.eqb_spec (JS.slice_last uri) "/") as [Heq|Hne].
    + apply IH. pose proof (length_slice_init uri). lia.
    + exact Hne.
Qed.

(** The loop of [removeTrailingSlashes] always ends within its rounds:
    what it returns does not end in a slash. *)
Lemma removeTrailingSlashes_no_slash (uri : string) :
  JS.slice_last (removeTrailingSlashes uri) <> "/".
Proof. apply removeTrailingSlashes_loop_stops. lia. Qed.

Lemma convertToString_error (v : value) (e : error) :
  convertToString this v = Throw e ->
  e = UriParameterBindingError "String conversion failed" None.
Proof.
  unfold convertToString.
  destruct v; try discriminate;
    destruct (Config.typeConversionFunction _ _); congruence.
Qed.

Lemma bindResolved_error (uri : string) (p : UriParameter) (v : value) (e : error) :
  bindResolved this uri p v = Throw e ->
  exists msg, e = UriParameterBindingError msg None.
Proof.
  unfold bindResolved.
  destruct (convertToString this v) as [s|e'] eqn:Hc.
  - destruct (required p && JS.isEmpty s).
    + destruct v; intros [= <-]; eauto.
    + discriminate.
  - apply convertToString_error in Hc. subst e'. cbn.
    intros [= <-]; eauto.
Qed.

(** Binding to a parameter of the collection fails with a binding
    error only. *)
Lemma bindParameter_ByRef_error (uri : string) (p : UriParameter) (v : value)
    (config : Configuration) (e : error) :
  bindParameter this uri (ByRef p) v config = Throw e ->
  exists msg, e = UriParameterBindingError msg None.
Proof.
  unfold bindParameter. cbn [resolve].
  destruct v; try apply bindResolved_error.
  destruct (required p); [intros [= <-]; eauto | apply bindResolved_error].
Qed.

Lemma bindParameter_missing_required (uri : string) (p : UriParameter)
    (config : Configuration) :
  required p = true ->
  exists msg,
    bindParameter this uri (ByRef p) VUndefined config
    = Throw (UriParameterBindingError msg None).
Proof. intros H. unfold bindParameter. cbn. rewrite H. eauto. Qed.

(** Binding a number the conversion function turns into [s]. *)
Lemma bindParameter_number (uri : string) (p : UriParameter) (z : Z)
    (s : string) (config : Configuration) :
  Config.typeConversionFunction (configuration this) (VNum z) = Some s ->
  JS.isEmpty (JS.trim s) = false ->
  bindParameter this uri (ByRef p) (VNum z) config
  = Ok (removeTrailingSlashes
          (JS.replace uri (placeholder p) (JS.encodeURIComponent (JS.trim s)))).
Proof.
  intros Hconv Hs. unfold bindParameter, bindResolved, convertToString.
  cbn [resolve]. rewrite Hconv, Hs, andb_false_r. reflexivity.
Qed.

Lemma bindObject_loop_error (ps : UriParameterCollection) (uri : string)
    (obj : object) (config : Configuration) (e : error) :
  fst (bindObject_loop this ps uri obj config) = Throw e ->
  exists msg, e = UriParameterBindingError msg None.
Proof.
  revert uri obj; induction ps as [|p ps IH]; intros uri obj;
    cbn [bindObject_loop].
  - discriminate.
  - destruct (bindParameter this uri (ByRef p) (JS.get obj (name p)) config)
      as [uri'|e'] eqn:Hb.
    + apply IH.
    + cbn. intros [= <-]. eapply bindParameter_ByRef_error; eassumption.
Qed.

Lemma bindObject_loop_missing_required (ps : UriParameterCollection)
    (uri : string) (obj : object) (config : Configuration) (p : UriParameter) :
  p ∈ ps -> required p = true -> JS.inherited (name p) = VUndefined ->
  JS.get obj (name p) = VUndefined ->
  exists msg,
    fst (bindObject_loop this ps uri obj config)
    = Throw (UriParameterBindingError msg None).
Proof.
  intros Hin Hreq Hinh. revert uri obj.
  induction ps as [|q ps IH]; intros uri obj Hget.
  - inversion Hin.
  - cbn [bindObject_loop].
    destruct (bindParameter this uri (ByRef q) (JS.get obj (name q)) config)
      as [uri'|e] eqn:Hb.
    + apply elem_of_cons in Hin as [->|Hin].
      * rewrite Hget in Hb.
        destruct (bindParameter_missing_required uri q config Hreq) as [m Hm].
        congruence.
      * apply IH; [assumption|]. by apply get_delete_undefined.
    + cbn. destruct (bindParameter_ByRef_error _ _ _ _ _ Hb) as [m ->]. eauto.
Qed.

Lemma fst_bindObject (uri : string) (obj : object) (config : Configuration) :
  fst (bindObject this uri obj config)
  = match fst (bindObject_loop this (parameters this) uri obj config) with
    | Ok uri' =>
        if Config.bindGetParameters config
        then Ok (bindGetParameters uri'
                   (snd (bindObject_loop this (parameters this) uri obj config))
                   config)
        else Ok uri'
    | Throw e => Throw e
    end.
Proof.
  unfold bindObject.
  destruct (bindObject_loop this (parameters this) uri obj config) as [[u|e] o];
    cbn; [destruct (Config.bindGetParameters config)|]; reflexivity.
Qed.

Lemma snd_bindObject (uri : string) (obj : object) (config : Configuration) :
  snd (bindObject this uri obj config)
  = snd (bindObject_loop this (parameters this) uri obj config).
Proof.
  unfold bindObject.
  destruct (bindObject_loop this (parameters this) uri obj config) as [[u|e] o];
    cbn; [destruct (Config.bindGetParameters config)|]; reflexivity.
Qed.

(** The object [bindObject] leaves behind: the keys of the parameters it
    got through are deleted, in order. *)
Lemma snd_bindObject_loop (ps : UriParameterCollection) (uri : string)
    (obj : object) (config : Configuration) :
  snd (bindObject_loop this ps uri obj config)
  = deleteAll obj (map name (boundParameters this ps uri obj config)).
Proof.
  revert uri obj; induction ps as [|p ps IH]; intros uri obj;
    cbn [bindObject_loop boundParameters].
  - reflexivity.
  - destruct (bindParameter this uri (ByRef p) (JS.get obj (name p)) config);
      cbn; [apply IH | reflexivity].
Qed.

Lemma bindObject_loop_ok_iff (ps : UriParameterCollection) (uri : string)
    (obj : object) (config : Configuration) :
  (exists u, fst (bindObject_loop this ps uri obj config) = Ok u)
  <-> boundParameters this ps uri obj config = ps.
Proof.
  revert uri obj; induction ps as [|p ps IH]; intros uri obj;
    cbn [bindObject_loop boundParameters].
  - split; eauto.
  - destruct (bindParameter this uri (ByRef p) (JS.get obj (name p)) config);
      cbn.
    + rewrite IH. split; [congruence | intros [= H]; exact H].
    + split; [intros [u Hu]; discriminate | discriminate].
Qed.

Lemma bindArray_loop_error (ps : UriParameterCollection) (i : nat)
    (uri : string) (array : list value) (config : Configuration) (e : error) :
  bindArray_loop this ps i uri array config = Throw e ->
  exists msg, e = UriParameterBindingError msg None.
Proof.
  revert i uri; induction ps as [|p ps IH]; intros i uri;
    cbn [bindArray_loop].
  - discriminate.
  - destruct (bindParameter this uri (ByRef p) (JS.index array i) config)
      as [uri'|e'] eqn:Hb.
    + apply IH.
    + intros [= <-]. eapply bindParameter_ByRef_error; eassumption.
Qed.

Lemma bindParameter_NoParameter_error (uri : string) (v : value)
    (config : Configuration) :
  bindParameter this uri NoParameter v config
  = Throw (UriParameterBindingError "String conversion failed" None)
  \/ bindParameter this uri NoParameter v config
     = Throw (undefined_read "required").
Proof.
  unfold bindParameter. cbn [resolve].
  destruct v; try (by right);
    (destruct (convertToString this _) as [s|e] eqn:Hc; [by right|];
     apply convertToString_error in Hc; subst e; by left).
Qed.

(** What [bind] throws is a binding error or the [TypeError] of a read on
    [undefined]. *)
Lemma bind_error (values : value) (config : option Configuration) (e : error) :
  fst (bind this values config) = Throw e ->
  (exists msg, e = UriParameterBindingError msg None)
  \/ e = undefined_read "required".
Proof.
  unfold bind.
  destruct ((length (parameters this) =? 0)
            && negb (Config.bindGetParameters (effective this config)));
    [discriminate|].
  assert (Hv : forall v, bindValue this (uri this) v (effective this config)
                         = Throw e ->
                         (exists msg, e = UriParameterBindingError msg None)
                         \/ e = undefined_read "required").
  { intros v. unfold bindValue.
    destruct (1 <? length (Collection.getRequired (parameters this)));
      [intros [= <-]; eauto|].
    unfold at_index. destruct (nth_error (parameters this) 0) as [p|].
    - intros H. left. eapply bindParameter_ByRef_error, H.
    - destruct (bindParameter_NoParameter_error (uri this) v
                  (effective this config)) as [-> | ->];
        intros [= <-]; eauto. }
  destruct values; cbn [fst]; try apply Hv.
  - intros H. left. eapply bindArray_loop_error, H.
  - destruct (bindObject this (uri this) props (effective this config))
      as [r o] eqn:Hb.
    cbn [fst]. intros ->.
    pose proof (fst_bindObject (uri this) props (effective this config))
      as Hf.
    rewrite Hb in Hf. cbn [fst] in Hf.
    destruct (fst (bindObject_loop this (parameters this) (uri this) props
                     (effective this config))) as [u|e'] eqn:Hloop.
    + destruct (Config.bindGetParameters (effective this config)); discriminate.
    + injection Hf as <-. left. eapply bindObject_loop_error, Hloop.
Qed.

Lemma bindObject_loop_app (ps qs : UriParameterCollection) (uri : string)
    (obj : object) (config : Configuration) :
  bindObject_loop this (ps ++ qs) uri obj config
  = match bindObject_loop this ps uri obj config with
    | (Ok uri', obj') => bindObject_loop this qs uri' obj' config
    | (Throw e, obj') => (Throw e, obj')
    end.
Proof.
  revert uri obj; induction ps as [|q ps IH]; intros uri obj.
  - reflexivity.
  - cbn [app bindObject_loop].
    destruct (bindParameter this uri (ByRef q) (JS.get obj (name q)) config);
      [apply IH | reflexivity].
Qed.

Lemma get_bindObject_loop_undefined (ps : UriParameterCollection)
    (uri : string) (obj : object) (config : Configuration) (k : string) :
  JS.inherited k = VUndefined -> JS.get obj k = VUndefined ->
  JS.get (snd (bindObject_loop this ps uri obj config)) k = VUndefined.
Proof.
  intros Hinh. revert uri obj; induction ps as [|q ps IH]; intros uri obj Hget.
  - exact Hget.
  - cbn [bindObject_loop].
    destruct (bindParameter this uri (ByRef q) (JS.get obj (name q)) config).
    + apply IH. by apply get_delete_undefined.
    + exact Hget.
Qed.

Lemma bindParameter_missing_optional (uri : string) (p : UriParameter)
    (config : Configuration) :
  required p = false ->
  bindParameter this uri (ByRef p) VUndefined config
  = Ok (removeTrailingSlashes (JS.replace uri (placeholder p) "")).
Proof.
  intros Hreq. unfold bindParameter. cbn [resolve]. rewrite Hreq.
  unfold bindResolved. cbn. rewrite Hreq. reflexivity.
Qed.

End BinderFacts.

Lemma bindGetParameters_loop_nonempty (uri : string) (entries : object) :
  uri <> "" ->
  Binder.bindGetParameters_loop uri entries
  = uri +:+ Binder.appendedQuery entries.
Proof.
  revert uri; induction entries as [|[k v] entries IH]; intros uri Hne;
    cbn [Binder.bindGetParameters_loop Binder.appendedQuery fold_right fst snd].
  - by rewrite append_empty_r.
  - rewrite (proj2 (String.eqb_neq uri "") Hne).
    rewrite IH.
    + fold (Binder.appendedQuery entries). by rewrite !append_assoc.
    + rewrite !append_assoc. by apply append_nonempty.
Qed.

Lemma has_deleteAll (keys : list string) (obj : object) (k : string) :
  k ∈ keys -> JS.has (Binder.deleteAll obj keys) k = false.
Proof.
  unfold Binder.deleteAll.
  revert obj; induction keys as [|k0 keys IH]; intros obj Hin.
  - inversion Hin.
  - cbn. destruct (decide (k ∈ keys)) as [Hk|Hk].
    + apply IH, Hk.
    + apply elem_of_cons in Hin as [->|Hin]; [|contradiction].
      clear IH Hk. generalize (has_delete_eq obj k0).
      generalize (JS.delete obj k0). induction keys as [|k1 keys IH]; intros o Ho.
      * exact Ho.
      * cbn. apply IH, has_delete_false, Ho.
Qed.

Lemma get_deleteAll_other (keys : list string) (obj : object) (k : string) :
  k ∉ keys -> JS.get (Binder.deleteAll obj keys) k = JS.get obj k.
Proof.
  unfold Binder.deleteAll.
  revert obj; induction keys as [|k0 keys IH]; intros obj Hin; [reflexivity|].
  cbn. apply not_elem_of_cons in Hin as [Hne Hin].
  rewrite IH by assumption. apply get_delete_ne. congruence.
Qed.

Section BinderClaims.

Import Binder.

(** C1 (the code departs from it): with [bindGetParameters] on and a
    template without placeholders, [bind] on an object appends every key
    in enumeration order, key and value percent-encoded, but joins the
    first pair with [&] like the later ones whenever the template is not
    empty: the test of [bindGetParameters] is whether the url built so
    far is empty.  So ["/search"] with [{q: "a b", page: 2}] gives
    ["/search&q=a%20b&page=2"], not ["/search?q=a%20b&page=2"]; the
    object is left as it was, no key matches a placeholder. *)
Theorem C1_first_pair_joined_by_ampersand :
  (forall (this : UriParameterBinder) (obj : object)
          (config : option Configuration),
      parameters this = [] -> uri this <> "" ->
      Config.bindGetParameters (effective this config) = true ->
      bind this (VObj obj) config
      = (Ok (uri this +:+ appendedQuery obj), VObj obj))
  /\ (forall conv : value -> option string,
        let config := {| Config.bindGetParameters := true;
                         Config.typeConversionFunction := conv |} in
        let values := VObj [("q", VStr "a b"); ("page", VNum 2)] in
        exists this,
          new "/search" config = Ok this
          /\ parameters this = []
          /\ bind this values None = (Ok "/search&q=a%20b&page=2", values)
          /\ fst (bind this values None) <> Ok "/search?q=a%20b&page=2").
Proof.
  split.
  - intros this obj config Hps Hne Hbg.
    unfold bind, bindObject. rewrite Hps, Hbg.
    cbn [length Nat.eqb andb negb bindObject_loop].
    unfold bindGetParameters.
    by rewrite bindGetParameters_loop_nonempty.
  - intros conv config values.
    exists {| uri := "/search"; parameters := []; configuration := config |}.
    split; [reflexivity|]. split; [reflexivity|].
    split; [vm_compute; reflexivity | vm_compute; discriminate].
Qed.

Lemma C1_first_pair_joined_by_ampersand_witness :
  bind {| uri := "/search"; parameters := [];
          configuration := exampleConfiguration true |}
    (VObj [("q", VStr "a b"); ("page", VNum 2)]) None
  = (Ok "/search&q=a%20b&page=2", VObj [("q", VStr "a b"); ("page", VNum 2)]).
Proof.
  exact (proj1 C1_first_pair_joined_by_ampersand
           {| uri := "/search"; parameters := [];
              configuration := exampleConfiguration true |}
           [("q", VStr "a b"); ("page", VNum 2)] None
           eq_refl ltac:(discriminate) eq_refl).
Defined.

(** C2 (the code departs from it): when the conversion function answers
    [null] for a value that is neither a string nor [undefined],
    [convertToString] throws a [UriParameterBindingError] itself, with
    the fixed message and no cause; the [catch] of [bindParameter] looks
    for a [TypeConversionError], finds none and lets it through, so the
    caller gets no parameter name and no type.  (No [bind] call ends in a
    [TypeConversionError]: none is ever thrown.) *)
Theorem C2_null_conversion_not_rewrapped :
  (forall (this : UriParameterBinder) (uri : string) (p : UriParameter)
          (v : value) (config : Configuration),
      v <> VUndefined -> (forall s, v <> VStr s) ->
      Config.typeConversionFunction (configuration this) v = None ->
      bindParameter this uri (ByRef p) v config
      = Throw (UriParameterBindingError "String conversion failed" None))
  /\ (forall (this : UriParameterBinder) (values : value)
             (config : option Configuration) (e : error),
        fst (bind this values config) = Throw e ->
        isTypeConversionError e = false)
  /\ (exists this,
        new "/users/{id}" (exampleConfiguration false) = Ok this
        /\ fst (bind this (VObj [("id", VNull)]) None)
           = Throw (UriParameterBindingError "String conversion failed" None)
        /\ fst (bind this (VObj [("id", VNull)]) None)
           <> Throw (UriParameterBindingError
                       "Cannot bind value for parameter 'id', unable to convert object to string."
                       (Some (TypeConversionError "String conversion failed")))).
Proof.
  split.
  - intros this uri p v config Hu Hs Hconv.
    unfold bindParameter. cbn [resolve].
    assert (Hres : bindResolved this uri p v
                   = Throw (UriParameterBindingError "String conversion failed" None)).
    { unfold bindResolved, convertToString.
      destruct v; try rewrite Hconv; try reflexivity.
      exfalso. eapply Hs. reflexivity. }
    destruct v; try exact Hres. congruence.
  - split.
    + intros this values config e He.
      destruct (bind_error this values config e He) as [[msg ->] | ->];
        reflexivity.
    + exists {| uri := "/users/{id}";
                parameters := [{| name := "id"; required := true;
                                  placeholder := "{id}" |}];
                configuration := exampleConfiguration false |}.
      split; [reflexivity|].
      split; [vm_compute; reflexivity | vm_compute; discriminate].
Qed.

Lemma C2_null_conversion_not_rewrapped_witness :
  bindParameter
    {| uri := "/users/{id}";
       parameters := [{| name := "id"; required := true; placeholder := "{id}" |}];
       configuration := exampleConfiguration false |}
    "/users/{id}"
    (ByRef {| name := "id"; required := true; placeholder := "{id}" |})
    VNull (exampleConfiguration false)
  = Throw (UriParameterBindingError "String conversion failed" None).
Proof.
  apply (proj1 C2_null_conversion_not_rewrapped).
  - discriminate.
  - intros s; discriminate.
  - reflexivity.
Defined.

(** C4 as the specification words it fails: a key the object leaves out
    is read through the prototype chain, so for the template
    ["/x/{constructor?}"] the object [{}] does not give ["/x"]: the
    optional parameter reads [Object] and the conversion of that function
    fails.  An own key holding [undefined] is what hides the inherited
    member. *)
Lemma C4_counterexample :
  exists this,
    new "/x/{constructor?}" (exampleConfiguration false) = Ok this
    /\ JS.has [] "constructor" = false
    /\ fst (bind this (VObj []) None)
       = Throw (UriParameterBindingError "String conversion failed" None)
    /\ fst (bind this (VObj []) None) <> Ok "/x"
    /\ fst (bind this (VObj [("constructor", VUndefined)]) None) = Ok "/x".
Proof.
  eexists. split; [reflexivity|].
  split; [reflexivity|]. split; [reflexivity|].
  split; [discriminate|reflexivity].
Qed.

(** C4, amended: a parameter is missing when the read of its name on
    the object gives [undefined], that is when the object has no value
    of its own under the name and [Object.prototype] has no member of
    that name.  An object in which a required parameter is missing makes
    [bind] fail with a [UriParameterBindingError]; where an optional
    parameter is missing the loop of [bindObject] replaces its
    placeholder by the empty string, strips the trailing slashes and
    goes on with the parameters that follow, so that [bind] on a
    template whose last parameter is optional and missing returns the
    url bound so far with the placeholder removed and no trailing slash;
    and the three calls on ["/users/{id}/posts/{slug?}"] give what the
    specification says. *)
Theorem C4_missing_required_fails_missing_optional_is_empty :
  (forall (this : UriParameterBinder) (obj : object)
          (config : option Configuration) (p : UriParameter),
      p ∈ parameters this -> required p = true ->
      JS.inherited (name p) = VUndefined ->
      JS.get obj (name p) = VUndefined ->
      exists msg,
        fst (bind this (VObj obj) config)
        = Throw (UriParameterBindingError msg None))
  /\ (forall (this : UriParameterBinder) (p : UriParameter)
             (rest : UriParameterCollection) (uri : string) (obj : object)
             (config : Configuration),
        required p = false ->
        JS.get obj (name p) = VUndefined ->
        bindObject_loop this (p :: rest) uri obj config
        = bindObject_loop this rest
            (removeTrailingSlashes (JS.replace uri (placeholder p) ""))
            (JS.delete obj (name p)) config
        /\ JS.slice_last (removeTrailingSlashes
                            (JS.replace uri (placeholder p) "")) <> "/")
  /\ (forall (this : UriParameterBinder) (obj : object)
             (config : option Configuration)
             (before : UriParameterCollection) (p : UriParameter)
             (url : string),
        parameters this = before ++ [p] -> required p = false ->
        Config.bindGetParameters (effective this config) = false ->
        JS.inherited (name p) = VUndefined ->
        JS.get obj (name p) = VUndefined ->
        fst (bindObject_loop this before (uri this) obj
               (effective this config)) = Ok url ->
        fst (bind this (VObj obj) config)
        = Ok (removeTrailingSlashes (JS.replace url (placeholder p) ""))
        /\ JS.slice_last (removeTrailingSlashes
                            (JS.replace url (placeholder p) "")) <> "/")
  /\ (forall config : Configuration,
        Config.typeConversionFunction config (VNum 42) = Some "42" ->
        exists this,
          new "/users/{id}/posts/{slug?}" config = Ok this
          /\ fst (bind this (VObj [("id", VNum 42)]) None)
             = Ok "/users/42/posts"
          /\ fst (bind this (VObj [("id", VNum 42);
                                   ("slug", VStr "hello world")]) None)
             = Ok "/users/42/posts/hello%20world"
          /\ fst (bind this (VObj []) None)
             = Throw (UriParameterBindingError
                        "Cannot bind missing value for required parameter 'id'."
                        None)).
Proof.
  split; [|split; [|split]].
  - intros this obj config p Hin Hreq Hinh Hget.
    unfold bind.
    destruct (parameters this) as [|q ps] eqn:Hps; [inversion Hin|].
    cbn [length Nat.eqb andb].
    destruct (bindObject this (uri this) obj (effective this config))
      as [r obj'] eqn:Hb.
    cbn [fst].
    pose proof (fst_bindObject this (uri this) obj (effective this config)) as Hf.
    rewrite Hb in Hf. cbn [fst] in Hf. rewrite Hf.
    rewrite <- Hps in Hin.
    destruct (bindObject_loop_missing_required this (parameters this)
                (uri this) obj (effective this config) p Hin Hreq Hinh Hget)
      as [msg Hmsg].
    rewrite Hmsg. eauto.
  - intros this p rest uri obj config Hreq Hget. split.
    + cbn [bindObject_loop]. rewrite Hget.
      by rewrite bindParameter_missing_optional.
    + apply removeTrailingSlashes_no_slash.
  - intros this obj config before p url Hps Hreq Hbg Hinh Hget Hloop.
    split; [|apply removeTrailingSlashes_no_slash].
    unfold bind. rewrite Hps, length_app, Hbg. cbn [length].
    replace (length before + 1 =? 0) with false
      by (symmetry; apply Nat.eqb_neq; lia).
    cbn [andb].
    destruct (bindObject this (uri this) obj (effective this config))
      as [r obj'] eqn:Hb.
    cbn [fst].
    pose proof (fst_bindObject this (uri this) obj (effective this config)) as Hf.
    rewrite Hb in Hf. cbn [fst] in Hf. rewrite Hf, Hbg, Hps.
    rewrite bindObject_loop_app.
    pose proof (get_bindObject_loop_undefined this before (uri this) obj
                  (effective this config) (name p) Hinh Hget) as Hread.
    destruct (bindObject_loop this before (uri this) obj
                (effective this config)) as [[u|e] obj1];
      cbn [fst snd] in Hloop, Hread; [|discriminate].
    injection Hloop as ->.
    cbn [bindObject_loop]. rewrite Hread.
    by rewrite bindParameter_missing_optional.
  - intros [bg conv] Hconv. cbn in Hconv.
    exists {| uri := "/users/{id}/posts/{slug?}";
              parameters :=
                [{| name := "id"; required := true; placeholder := "{id}" |};
                 {| name := "slug"; required := false;
                    placeholder := "{slug?}" |}];
              configuration := {| Config.bindGetParameters := bg;
                                  Config.typeConversionFunction := conv |} |}.
    split; [reflexivity|].
    split; [|split].
    + unfold bind, bindObject.
      cbn [parameters bindObject_loop uri name JS.get effective configuration].
      change (JS.get [("id", VNum 42)] "id") with (VNum 42).
      rewrite (bindParameter_number _ _ _ 42 "42") by done.
      destruct bg; vm_compute; reflexivity.
    + unfold bind, bindObject.
      cbn [parameters bindObject_loop uri name JS.get effective configuration].
      change (JS.get [("id", VNum 42); ("slug", VStr "hello world")] "id")
        with (VNum 42).
      rewrite (bindParameter_number _ _ _ 42 "42") by done.
      destruct bg; vm_compute; reflexivity.
    + vm_compute. reflexivity.
Qed.

Lemma C4_missing_required_fails_missing_optional_is_empty_witness :
  (exists msg,
      fst (bind {| uri := "/users/{id}";
                   parameters := [{| name := "id"; required := true;
                                     placeholder := "{id}" |}];
                   configuration := exampleConfiguration true |}
             (VObj [("page", VNum 2)]) None)
      = Throw (UriParameterBindingError msg None))
  /\ fst (bind {| uri := "/users/{id}/posts/{slug?}";
                  parameters :=
                    [{| name := "id"; required := true;
                        placeholder := "{id}" |};
                     {| name := "slug"; required := false;
                        placeholder := "{slug?}" |}];
                  configuration := exampleConfiguration false |}
            (VObj [("id", VNum 42); ("page", VNum 2)]) None)
     = Ok (removeTrailingSlashes (JS.replace "/users/42/posts/{slug?}"
                                    "{slug?}" ""))
  /\ exists this,
      new "/users/{id}/posts/{slug?}" (exampleConfiguration false) = Ok this
      /\ fst (bind this (VObj [("id", VNum 42)]) None) = Ok "/users/42/posts".
Proof.
  split; [|split].
  - apply (proj1 C4_missing_required_fails_missing_optional_is_empty)
      with (p := {| name := "id"; required := true; placeholder := "{id}" |}).
    + cbn. apply list_elem_of_here.
    + reflexivity.
    + reflexivity.
    + reflexivity.
  - apply (proj1 (proj2 (proj2
             C4_missing_required_fails_missing_optional_is_empty)))
      with (before := [{| name := "id"; required := true;
                          placeholder := "{id}" |}])
           (p := {| name := "slug"; required := false;
                    placeholder := "{slug?}" |});
      reflexivity.
  - destruct (proj2 (proj2 (proj2
                C4_missing_required_fails_missing_optional_is_empty))
                (exampleConfiguration false) eq_refl) as (this & H1 & H2 & _).
    exists this. split; assumption.
Defined.

End BinderClaims.

Section BinderClaims2.

Import Binder.

(** C7 (the code departs from it): with [bindGetParameters] on and a
    template without placeholders, a scalar reaches [bindValue], which
    hands [this.parameters[0]], that is [undefined], to [bindParameter];
    the test there is [=== null], so the first read of
    [uriParameter.required] throws a [TypeError], which is not a
    [UriParameterBindingError].  This is so for every string and for
    [undefined], and for every other scalar the conversion function
    converts. *)
Theorem C7_scalar_without_parameters_throws_TypeError :
  (forall (this : UriParameterBinder) (v : value)
          (config : option Configuration),
      parameters this = [] ->
      Config.bindGetParameters (effective this config) = true ->
      isScalar v = true ->
      (v = VUndefined \/ (exists s, v = VStr s)
       \/ is_Some (Config.typeConversionFunction (configuration this) v)) ->
      fst (bind this v config) = Throw (undefined_read "required"))
  /\ (forall conv : value -> option string,
        let config := {| Config.bindGetParameters := true;
                         Config.typeConversionFunction := conv |} in
        let e := TypeError "Cannot read properties of undefined (reading 'required')" in
        exists this,
          new "/search" config = Ok this
          /\ parameters this = []
          /\ fst (bind this (VStr "x") None) = Throw e
          /\ fst (bind this VUndefined None) = Throw e
          /\ isBindingError e = false).
Proof.
  split.
  - intros this v config Hps Hbg Hv Hcases.
    assert (Hb : bindValue this (uri this) v (effective this config)
                 = Throw (undefined_read "required")).
    { unfold bindValue, at_index. rewrite Hps.
      cbn [Collection.getRequired filter list_filter length Nat.ltb Nat.leb
           nth_error].
      unfold bindParameter. cbn [resolve].
      destruct Hcases as [-> | [[s ->] | [s Hs]]]; [reflexivity..|].
      unfold convertToString. rewrite Hs.
      destruct v; reflexivity. }
    unfold bind. rewrite Hps, Hbg. cbn [length Nat.eqb andb negb].
    destruct v; try discriminate Hv; exact Hb.
  - intros conv config e.
    exists {| uri := "/search"; parameters := []; configuration := config |}.
    repeat split; vm_compute; reflexivity.
Qed.

Lemma C7_scalar_without_parameters_throws_TypeError_witness :
  fst (bind {| uri := "/search"; parameters := [];
               configuration := exampleConfiguration true |} (VNum 5) None)
  = Throw (TypeError "Cannot read properties of undefined (reading 'required')").
Proof.
  apply (proj1 C7_scalar_without_parameters_throws_TypeError
           {| uri := "/search"; parameters := [];
              configuration := exampleConfiguration true |} (VNum 5) None).
  - reflexivity.
  - reflexivity.
  - reflexivity.
  - right. right. vm_compute. eexists. reflexivity.
Defined.

(** C8: [bind] on a scalar fails with a [UriParameterBindingError] when
    more than one parameter of the collection is required, and otherwise
    binds the scalar to the first parameter of the collection. *)
Theorem C8_scalar_binds_first_parameter :
  forall (this : UriParameterBinder) (v : value) (config : option Configuration),
    isScalar v = true ->
    (1 < length (Collection.getRequired (parameters this)) ->
     exists msg,
       bind this v config = (Throw (UriParameterBindingError msg None), v))
    /\ (length (Collection.getRequired (parameters this)) <= 1 ->
        forall p rest, parameters this = p :: rest ->
          bind this v config
          = (bindParameter this (uri this) (ByRef p) v (effective this config), v)).
Proof.
  intros this v config Hv. split.
  - intros Hreq. unfold bind.
    destruct (parameters this) as [|p ps] eqn:Hps; [cbn in Hreq; lia|].
    cbn [length Nat.eqb andb].
    assert (Hval : bindValue this (uri this) v (effective this config)
                   = Throw (UriParameterBindingError
                              ("Cannot bind a given " +:+ JS.typeof v
                               +:+ " as uri parameters: this type is handled as a plain value and can only be bound to one parameter but there are "
                               +:+ JS.string_of_nat
                                     (length (Collection.getRequired (parameters this)))
                               +:+ " required parameters.") None)).
    { unfold bindValue. rewrite Hps.
      rewrite (proj2 (Nat.ltb_lt _ _) Hreq). reflexivity. }
    destruct v; try discriminate Hv; rewrite Hval; eauto.
  - intros Hreq p rest Hps. unfold bind. rewrite Hps.
    cbn [length Nat.eqb andb].
    assert (Hval : bindValue this (uri this) v (effective this config)
                   = bindParameter this (uri this) (ByRef p) v
                       (effective this config)).
    { unfold bindValue. rewrite Hps in *.
      rewrite (proj2 (Nat.ltb_ge _ _) Hreq). reflexivity. }
    destruct v; try discriminate Hv; rewrite Hval; reflexivity.
Qed.

Lemma C8_scalar_binds_first_parameter_witness :
  (exists msg,
      bind {| uri := "/a/{x}/{y}";
              parameters := [{| name := "x"; required := true; placeholder := "{x}" |};
                             {| name := "y"; required := true; placeholder := "{y}" |}];
              configuration := exampleConfiguration false |} (VNum 5) None
      = (Throw (UriParameterBindingError msg None), VNum 5))
  /\ bind {| uri := "/a/{x?}/{y}";
             parameters := [{| name := "x"; required := false; placeholder := "{x?}" |};
                            {| name := "y"; required := true; placeholder := "{y}" |}];
             configuration := exampleConfiguration false |} (VNum 5) None
     = (Ok "/a/5/{y}", VNum 5).
Proof.
  split.
  - apply (C8_scalar_binds_first_parameter _ (VNum 5) None eq_refl).
    vm_compute. lia.
  - pose proof (C8_scalar_binds_first_parameter
                  {| uri := "/a/{x?}/{y}";
                     parameters :=
                       [{| name := "x"; required := false; placeholder := "{x?}" |};
                        {| name := "y"; required := true; placeholder := "{y}" |}];
                     configuration := exampleConfiguration false |}
                  (VNum 5) None eq_refl) as [_ H].
    rewrite (H ltac:(vm_compute; lia) _ _ eq_refl).
    reflexivity.
Defined.

Lemma canBindObject_eq (this : UriParameterBinder) (obj : object)
    (config : option Configuration) :
  canBindObject this obj config
  = (Ok (match fst (bindObject_loop this (parameters this) (uri this) obj
                      (effective this config)) with
         | Ok _ => true
         | Throw _ => false
         end),
     snd (bindObject_loop this (parameters this) (uri this) obj
            (effective this config))).
Proof.
  unfold canBindObject, bindObject.
  destruct (bindObject_loop this (parameters this) (uri this) obj
              (effective this config)) as [[u|e] o] eqn:Hloop.
  - destruct (Config.bindGetParameters (effective this config)); reflexivity.
  - destruct (bindObject_loop_error this (parameters this) (uri this) obj
                (effective this config) e) as [msg ->].
    + rewrite Hloop. reflexivity.
    + reflexivity.
Qed.

(** C10: [canBindObject] consumes the caller's object.  The keys of the
    parameters [bindObject] got through are deleted from it, every other
    key is kept, and this is so when the answer is [true] (all
    parameters were bound) and when it is [false] (binding stopped at
    one of them). *)
Theorem C10_canBindObject_consumes_bound_keys :
  (forall (this : UriParameterBinder) (obj : object)
          (config : option Configuration),
      let bound := boundParameters this (parameters this) (uri this) obj
                     (effective this config) in
      let obj' := snd (canBindObject this obj config) in
      obj' = deleteAll obj (map name bound)
      /\ (forall p, p ∈ bound -> JS.has obj' (name p) = false)
      /\ (forall k, k ∉ map name bound -> JS.get obj' k = JS.get obj k)
      /\ (fst (canBindObject this obj config) = Ok true
          <-> bound = parameters this)
      /\ (fst (canBindObject this obj config) = Ok false
          <-> bound <> parameters this))
  /\ (exists this,
        new "/users/{id}/posts/{slug}" (exampleConfiguration false) = Ok this
        /\ canBindObject this [("id", VNum 7); ("tag", VStr "x")] None
           = (Ok false, [("tag", VStr "x")])
        /\ canBindObject this
             [("id", VNum 7); ("slug", VStr "s"); ("tag", VStr "x")] None
           = (Ok true, [("tag", VStr "x")])).
Proof.
  split.
  - intros this obj config bound obj'.
    assert (Hobj : obj' = deleteAll obj (map name bound)).
    { subst obj' bound. rewrite canBindObject_eq. cbn [snd].
      apply snd_bindObject_loop. }
    split; [exact Hobj|]. split; [|split; [|split]].
    + intros p Hp. rewrite Hobj. apply has_deleteAll.
      apply list_elem_of_fmap. eauto.
    + intros k Hk. rewrite Hobj. apply get_deleteAll_other, Hk.
    + subst bound. rewrite canBindObject_eq. cbn [fst].
      rewrite <- bindObject_loop_ok_iff.
      destruct (fst (bindObject_loop this (parameters this) (uri this) obj
                       (effective this config))) as [u|e].
      * split; eauto.
      * split; [discriminate | intros [u Hu]; discriminate].
    + subst bound. rewrite canBindObject_eq. cbn [fst].
      rewrite <- bindObject_loop_ok_iff.
      destruct (fst (bindObject_loop this (parameters this) (uri this) obj
                       (effective this config))) as [u|e].
      * split; [discriminate | intros H; exfalso; apply H; eauto].
      * split; [intros _ [u Hu]; discriminate | reflexivity].
  - eexists. repeat split; reflexivity.
Qed.

Lemma C10_canBindObject_consumes_bound_keys_witness :
  JS.has
    (snd (canBindObject
            {| uri := "/users/{id}/posts/{slug}";
               parameters :=
                 [{| name := "id"; required := true; placeholder := "{id}" |};
                  {| name := "slug"; required := true; placeholder := "{slug}" |}];
               configuration := exampleConfiguration false |}
            [("id", VNum 7); ("tag", VStr "x")] None))
    "id" = false.
Proof.
  apply (proj1 (proj2 (proj1 C10_canBindObject_consumes_bound_keys
                         {| uri := "/users/{id}/posts/{slug}";
                            parameters :=
                              [{| name := "id"; required := true; placeholder := "{id}" |};
                               {| name := "slug"; required := true; placeholder := "{slug}" |}];
                            configuration := exampleConfiguration false |}
                         [("id", VNum 7); ("tag", VStr "x")] None))
           {| name := "id"; required := true; placeholder := "{id}" |}).
  vm_compute. apply list_elem_of_here.
Defined.

End BinderClaims2.

(* ===================================================================== *)
(** ** The registration middleware                                        *)
(* ===================================================================== *)

Section MiddlewareClaims.

Import Middleware.

(** Without a prefix, [apply] hands back the route's own [extra] object,
    after writing the configured entries into it. *)
Lemma apply_without_prefix (configuration : RouteRegistrarConfiguration)
    (route : Route) (σ : store) :
  prefix configuration = "" ->
  apply configuration route σ
  = (Ok {| route_name := route_name route;
           route_method := route_method route;
           route_uri := route_uri route;
           route_extra := route_extra route |},
     <[route_extra route :=
         JS.assign (contents σ (route_extra route))
                   (contents σ (extra configuration))]> σ).
Proof. intros H. unfold apply, updateUri. rewrite H. reflexivity. Qed.

(** C6 (the code departs from it): [apply] builds a new [Route], but
    [Object.assign(route.extra, ...)] writes the configured entries into
    the [extra] object of the route it was given, and the new route
    shares that object; with a prefix, [Object.assign] writes into the
    configuration object of the given route's Uri as well.  Here the
    given route has an empty [extra] and an empty Uri configuration, the
    middleware is configured with [extra = {auth: true}] and
    [uris = {prependSlash: true}]. *)
Theorem C6_apply_writes_into_the_given_route :
  let σ : store :=
    <[0 := []]> (<[1 := []]>
      (<[2 := [("auth", VBool true)]]>
         (<[3 := [("prependSlash", VBool true)]]> ∅))) in
  let route :=
    {| route_name := "ping"; route_method := GET;
       route_uri := {| template := "/ping"; uri_parameters := [];
                       uri_configuration := 1 |};
       route_extra := 0 |} in
  let plain := {| prefix := ""; extra := 2; uris := 3 |} in
  let prefixing := {| prefix := "/api"; extra := 2; uris := 3 |} in
  (exists route' σ',
      apply plain route σ = (Ok route', σ')
      /\ route_extra route' = route_extra route
      /\ contents σ (route_extra route) = []
      /\ contents σ' (route_extra route) = [("auth", VBool true)]
      /\ observe σ' route <> observe σ route)
  /\ (exists route' σ',
        apply prefixing route σ = (Ok route', σ')
        /\ template (route_uri route') = "/api/ping"
        /\ contents σ (uri_configuration (route_uri route)) = []
        /\ contents σ' (uri_configuration (route_uri route))
           = [("prependSlash", VBool true)]
        /\ observe σ' route <> observe σ route).
Proof.
  intros σ route plain prefixing. split.
  - eexists _, _. split; [reflexivity|].
    repeat split; try reflexivity. vm_compute. discriminate.
  - eexists _, _. split; [reflexivity|].
    repeat split; try reflexivity. vm_compute. discriminate.
Qed.

End MiddlewareClaims.

(* ===================================================================== *)
(** ** The router                                                         *)
(* ===================================================================== *)

Section RouterFacts.

Import Router.

Lemma name_prefixed (s : Router) (r : Route) : name (prefixed s r) = name r.
Proof. unfold prefixed. destruct (routePrefix s); reflexivity. Qed.

Lemma method_prefixed (s : Router) (r : Route) :
  method (prefixed s r) = method r.
Proof. unfold prefixed. destruct (routePrefix s); reflexivity. Qed.

Lemma url_prefixed (s : Router) (r : Route) :
  url (prefixed s r) = prefixedUrl s (url r).
Proof. unfold prefixed, prefixedUrl. destruct (routePrefix s); reflexivity. Qed.

Lemma registerRoute_registered (s : Router) (l : ref) :
  registered s l (registerRoute s l).
Proof.
  unfold registerRoute.
  destruct (heap s !! l) as [route0|] eqn:Hl; [|by constructor].
  destruct (immutable (config s)
            && bool_decide (is_Some (routes s !! name route0))) eqn:Himm.
  - apply andb_true_iff in Himm as [Hi Hn].
    apply bool_decide_eq_true in Hn. by constructor.
  - assert (Hfree : immutable (config s) = true ->
                    routes s !! name route0 = None).
    { intros Hi. rewrite Hi in Himm. cbn in Himm.
      apply bool_decide_eq_false in Himm.
      by apply eq_None_not_Some. }
    cbn [signatures with_heap config].
    fold (signatureOf (prefixed s route0)).
    destruct (signatures s !! signatureOf (prefixed s route0))
      as [oldRoute|] eqn:Hsig.
    + destruct (duplicates (config s)) eqn:Hdup; cbn [negb].
      * apply registered_ok; [done|done|congruence].
      * by apply registered_duplicate.
    + by apply registered_ok.
Qed.

(** A call that throws writes neither map, and no call touches the
    configuration or the prefix. *)
Lemma registerRoute_throws (s s' : Router) (l : ref) (e : error) :
  registerRoute s l = (Throw e, s') ->
  routes s' = routes s /\ signatures s' = signatures s.
Proof.
  destruct (registerRoute_registered s l); intros [= <- <-]; done.
Qed.

Lemma registerRoute_frame (s : Router) (l : ref) :
  config (snd (registerRoute s l)) = config s
  /\ routePrefix (snd (registerRoute s l)) = routePrefix s.
Proof. destruct (registerRoute_registered s l); done. Qed.

Lemma register_frame (s : Router) (n : string) (m : RequestMethod) (u : string) :
  config (snd (register s n m u)) = config s
  /\ routePrefix (snd (register s n m u)) = routePrefix s.
Proof.
  unfold register.
  destruct (registerRoute_frame
              (with_heap (heap s ++ [{| name := n; method := m; url := u |}]) s)
              (length (heap s))) as [H1 H2].
  split; [exact H1 | exact H2].
Qed.

(** *** What every run keeps *)

Section Preservation.

Variable P : Router -> Prop.
Hypothesis P_prefix : forall s p, P s -> P (with_routePrefix p s).
Hypothesis P_alloc : forall s r, P s -> P (with_heap (heap s ++ [r]) s).
Hypothesis P_registerRoute : forall s l, P s -> P (snd (registerRoute s l)).

Lemma register_preserves (s : Router) (n : string) (m : RequestMethod)
    (u : string) :
  P s -> P (snd (register s n m u)).
Proof. intros Hs. unfold register. by apply P_registerRoute, P_alloc. Qed.

Lemma exec_preserves (c : script) :
  forall s, P s -> P (snd (exec c s)).
Proof.
  induction c as [|n m u k IHk|l k IHk|p cb IHcb k IHk|body IHb k IHk|e];
    intros s Hs; cbn [exec].
  - exact Hs.
  - pose proof (register_preserves s n m u Hs) as H.
    unfold andThen. destruct (register s n m u) as [[[]|e] s'];
      cbn [snd] in *; auto.
  - pose proof (P_registerRoute s l Hs) as H.
    unfold andThen. destruct (registerRoute s l) as [[[]|e] s'];
      cbn [snd] in *; auto.
  - pose proof (IHcb _ (P_prefix s (Some p) Hs)) as H.
    unfold andThen, prefix.
    destruct (exec cb (with_routePrefix (Some p) s)) as [[[]|e] s'];
      cbn [snd] in *; auto.
  - auto.
  - exact Hs.
Qed.

End Preservation.

Lemma exec_config (c : script) (s : Router) :
  config (snd (exec c s)) = config s.
Proof.
  apply (exec_preserves (fun s' => config s' = config s)); try done.
  intros s' l <-. apply registerRoute_frame.
Qed.

(** *** Under every configuration *)

Lemma consistent_alloc (s : Router) (r : Route) :
  consistent s -> consistent (with_heap (heap s ++ [r]) s).
Proof.
  intros (Ha & Hb & Hc). split; [|split]; cbn [routes signatures heap with_heap].
  - intros n l Hn. destruct (Ha n l Hn) as (r0 & Hr0 & Hname).
    exists r0. split; [by apply lookup_app_l_Some|done].
  - exact Hb.
  - intros n l r' Hn Hl. destruct (Ha n l Hn) as (r0 & Hr0 & Hname).
    rewrite (lookup_app_l_Some _ _ _ _ Hr0) in Hl. injection Hl as <-.
    eauto.
Qed.

Lemma consistent_registerRoute (s : Router) (l : ref) :
  consistent s -> consistent (snd (registerRoute s l)).
Proof.
  intros Hs. pose proof Hs as (Ha & Hb & Hc).
  destruct (registerRoute_registered s l)
    as [Hl|route0 Hl Hi Hn|route0 old Hl Hfree Hdup Hsig|route0 Hl Hfree Hsig];
    cbn [snd]; try exact Hs.
  - (* the prefix is on the route, the maps are as before *)
    pose proof (lookup_lt_Some _ _ _ Hl) as Hlt.
    split; [|split]; cbn [routes signatures heap with_heap].
    + intros n l' Hn. destruct (decide (l = l')) as [<-|Hne].
      * rewrite list_lookup_insert_eq by done.
        destruct (Ha n l Hn) as (r0 & Hr0 & Hname).
        exists (prefixed s route0). split; [done|].
        rewrite name_prefixed. congruence.
      * rewrite list_lookup_insert_ne by done. eauto.
    + exact Hb.
    + intros n l' r Hn. destruct (decide (l = l')) as [<-|Hne].
      * rewrite list_lookup_insert_eq by done. intros [= <-]. eauto.
      * rewrite list_lookup_insert_ne by done. eauto.
  - (* both maps are written *)
    pose proof (lookup_lt_Some _ _ _ Hl) as Hlt.
    split; [|split];
      cbn [routes signatures heap with_heap insertRoute].
    + intros n l' Hn. apply lookup_insert_Some in Hn as [[<- <-]|[Hne Hn]].
      * rewrite list_lookup_insert_eq by done. eauto.
      * destruct (decide (l = l')) as [<-|Hne'].
        -- rewrite list_lookup_insert_eq by done.
           destruct (Ha n l Hn) as (r0 & Hr0 & Hname).
           exists (prefixed s route0). split; [done|].
           rewrite name_prefixed. congruence.
        -- rewrite list_lookup_insert_ne by done. eauto.
    + intros sig n Hn. apply lookup_insert_is_Some.
      apply lookup_insert_Some in Hn as [[<- <-]|[Hne Hn]]; [by left|].
      destruct (decide (name (prefixed s route0) = n)); [by left|].
      right. eauto.
    + intros n l' r Hn Hr. apply lookup_insert_is_Some.
      destruct (decide (signatureOf (prefixed s route0) = signatureOf r));
        [by left|right; split; [done|]].
      destruct (decide (l = l')) as [<-|Hne'].
      * rewrite list_lookup_insert_eq in Hr by done. congruence.
      * rewrite list_lookup_insert_ne in Hr by done.
        apply lookup_insert_Some in Hn as [[<- <-]|[Hne Hn]]; [done|eauto].
Qed.

Lemma consistent_new (cfg : ConfigurationInterface) (h : list Route) :
  consistent (new cfg h).
Proof.
  split; [|split]; cbn; intros *; rewrite lookup_empty; done.
Qed.

Lemma reachable_consistent (cfg : ConfigurationInterface) (s : Router) :
  reachable cfg s -> consistent s.
Proof.
  intros (h & c & <-).
  apply (exec_preserves consistent).
  - intros s p H. exact H.
  - apply consistent_alloc.
  - apply consistent_registerRoute.
  - apply consistent_new.
Qed.

Lemma reachable_config (cfg : ConfigurationInterface) (s : Router) :
  reachable cfg s -> config s = cfg.
Proof. intros (h & c & <-). apply exec_config. Qed.

End RouterFacts.

Section RouterStrict.

Import Router.

(** *** With [immutable: true] and [duplicates: false] *)

Lemma strict_alloc (s : Router) (r : Route) :
  strict s -> strict (with_heap (heap s ++ [r]) s).
Proof.
  intros (Ha & [H1 H2] & Hsize).
  split; [|split; [split|]]; cbn [routes signatures heap with_heap].
  - intros n l Hn. destruct (Ha n l Hn) as (r0 & Hr0 & Hname).
    exists r0. split; [by apply lookup_app_l_Some|done].
  - intros n l r' Hn Hl. destruct (Ha n l Hn) as (r0 & Hr0 & Hname).
    rewrite (lookup_app_l_Some _ _ _ _ Hr0) in Hl. injection Hl as <-.
    eauto.
  - intros sig n Hsig. destruct (H2 sig n Hsig) as (l & r0 & Hn & Hl & Hs).
    exists l, r0. split; [done|]. split; [by apply lookup_app_l_Some|done].
  - exact Hsize.
Qed.

(** A route object that passes the immutability test is not one of the
    stored ones. *)
Lemma stored_elsewhere (s : Router) (l l' : ref) (route0 : Route) (n : string) :
  (forall n l, routes s !! n = Some l ->
               exists r, heap s !! l = Some r /\ name r = n) ->
  heap s !! l = Some route0 ->
  routes s !! name route0 = None ->
  routes s !! n = Some l' ->
  l <> l'.
Proof.
  intros Ha Hl Hfree Hn ->.
  destruct (Ha n l' Hn) as (r & Hr & Hname). congruence.
Qed.

Lemma strictly_registerRoute (s : Router) (l : ref) :
  strictly s -> strictly (snd (registerRoute s l)).
Proof.
  intros (Himm & Hdup & Hs).
  destruct (registerRoute_frame s l) as [Hcfg _].
  split; [congruence|]. split; [congruence|]. clear Hcfg.
  pose proof Hs as (Ha & [H1 H2] & Hsize).
  destruct (registerRoute_registered s l)
    as [Hl|route0 Hl Hi Hn|route0 old Hl Hfree _ Hsig|route0 Hl Hfree Hsig];
    cbn [snd]; try exact Hs.
  - specialize (Hfree Himm).
    pose proof (stored_elsewhere s l) as Hne.
    split; [|split; [split|]]; cbn [routes signatures heap with_heap].
    + intros n l' Hn.
      rewrite list_lookup_insert_ne by (eapply Hne; eauto). eauto.
    + intros n l' r Hn.
      rewrite list_lookup_insert_ne by (eapply Hne; eauto). eauto.
    + intros sig n Hn. destruct (H2 sig n Hn) as (l' & r & Hr & Hl' & Hsg).
      exists l', r. split; [done|]. split; [|done].
      rewrite list_lookup_insert_ne by (eapply Hne; eauto). done.
    + exact Hsize.
  - specialize (Hfree Himm). specialize (Hsig Hdup).
    pose proof (stored_elsewhere s l) as Hne.
    pose proof (lookup_lt_Some _ _ _ Hl) as Hlt.
    split; [|split; [split|]];
      cbn [routes signatures heap with_heap insertRoute];
      rewrite ?name_prefixed.
    + intros n l' Hn. apply lookup_insert_Some in Hn as [[<- <-]|[Hnn Hn]].
      * rewrite list_lookup_insert_eq by done.
        eexists. split; [done|]. apply name_prefixed.
      * rewrite list_lookup_insert_ne by (eapply Hne; eauto). eauto.
    + intros n l' r Hn Hr.
      apply lookup_insert_Some in Hn as [[<- <-]|[Hnn Hn]].
      * rewrite list_lookup_insert_eq in Hr by done. injection Hr as <-.
        apply lookup_insert_eq.
      * rewrite list_lookup_insert_ne in Hr by (eapply Hne; eauto).
        rewrite lookup_insert_ne; [eauto|].
        intros Heq. rewrite Heq in Hsig.
        rewrite (H1 n l' r Hn Hr) in Hsig. discriminate.
    + intros sig n Hn. apply lookup_insert_Some in Hn as [[<- <-]|[Hnn Hn]].
      * exists l, (prefixed s route0).
        rewrite lookup_insert_eq, list_lookup_insert_eq by done. done.
      * destruct (H2 sig n Hn) as (l' & r & Hr & Hl' & Hsg).
        exists l', r.
        assert (name route0 <> n) by congruence.
        rewrite lookup_insert_ne by done.
        rewrite list_lookup_insert_ne by (eapply Hne; eauto). done.
    + rewrite !map_size_insert_None by done. congruence.
Qed.

Lemma strictly_new (cfg : ConfigurationInterface) (h : list Route) :
  immutable cfg = true -> duplicates cfg = false -> strictly (new cfg h).
Proof.
  intros Hi Hd. split; [done|]. split; [done|].
  split; [|split; [split|]]; cbn; try done;
    intros *; rewrite lookup_empty; done.
Qed.

Lemma reachable_strict (cfg : ConfigurationInterface) (s : Router) :
  immutable cfg = true -> duplicates cfg = false ->
  reachable cfg s -> strict s.
Proof.
  intros Hi Hd (h & c & <-).
  apply (exec_preserves strictly).
  - intros s p H. exact H.
  - intros s r (? & ? & ?). split; [done|]. split; [done|].
    by apply strict_alloc.
  - apply strictly_registerRoute.
  - by apply strictly_new.
Qed.

End RouterStrict.


Section RouterRegister.

Import Router.

Lemma prefixed_new (s : Router) (h : list Route) (n : string)
    (m : RequestMethod) (u : string) :
  prefixed (with_heap h s) {| name := n; method := m; url := u |}
  = {| name := n; method := m; url := prefixedUrl s u |}.
Proof.
  unfold prefixed, prefixedUrl. cbn [routePrefix with_heap].
  destruct (routePrefix s); reflexivity.
Qed.

Lemma insert_last (h : list Route) (r r' : Route) :
  <[length h := r']> (h ++ [r]) = h ++ [r'].
Proof.
  rewrite insert_app_r_alt by lia. by rewrite Nat.sub_diag.
Qed.

(** The three ways [register] ends; [new Route] leaves its object in the
    heap in each of them, with the prefix on it once the immutability
    test is passed. *)
Lemma register_cases (s : Router) (n : string) (m : RequestMethod) (u : string) :
  let r := {| name := n; method := m; url := prefixedUrl s u |} in
  let s1 := with_heap (heap s ++ [r]) s in
  (immutable (config s) = true /\ is_Some (routes s !! n)
   /\ register s n m u
      = (Throw (RegistrationError (immutable_message n)),
         with_heap (heap s ++ [{| name := n; method := m; url := u |}]) s))
  \/ (exists oldRoute,
        duplicates (config s) = false
        /\ signatures s !! signatureOf r = Some oldRoute
        /\ register s n m u
           = (Throw (RegistrationError (duplicate_message n oldRoute)), s1))
  \/ ((immutable (config s) = true -> routes s !! n = None)
      /\ (duplicates (config s) = false -> signatures s !! signatureOf r = None)
      /\ register s n m u
         = (Ok tt, insertRoute s1 (signatureOf r) r (length (heap s)))).
Proof.
  intros r s1. unfold register.
  set (route0 := {| name := n; method := m; url := u |}).
  set (s0 := with_heap (heap s ++ [route0]) s).
  assert (Hl : heap s0 !! length (heap s) = Some route0)
    by (apply list_lookup_middle; reflexivity).
  assert (Hp : prefixed s0 route0 = r) by apply prefixed_new.
  assert (Hs1 : with_heap (<[length (heap s) := r]> (heap s0)) s0 = s1).
  { subst s0 s1. unfold with_heap. cbn [routes config signatures routePrefix heap].
    by rewrite insert_last. }
  destruct (registerRoute_registered s0 (length (heap s)))
    as [Hl'|x Hl' Hi Hn|x old Hl' Hfree Hdup Hsig|x Hl' Hfree Hsig].
  - congruence.
  - rewrite Hl in Hl'. injection Hl' as <-. left. done.
  - rewrite Hl in Hl'. injection Hl' as <-. right. left.
    rewrite Hp in *. rewrite Hs1. exists old. done.
  - rewrite Hl in Hl'. injection Hl' as <-. right. right.
    rewrite Hp in *. rewrite Hs1. done.
Qed.

(** What a successful [register] stores under the name. *)
Lemma register_stores (s : Router) (n : string) (m : RequestMethod) (u : string) :
  fst (register s n m u) = Ok tt ->
  routeNamed (snd (register s n m u)) n
  = Some {| name := n; method := m; url := prefixedUrl s u |}.
Proof.
  destruct (register_cases s n m u)
    as [(_ & _ & ->)|[(old & _ & _ & ->)|(_ & _ & ->)]];
    cbn [fst snd]; try discriminate.
  intros _. unfold routeNamed, route, deref.
  cbn [routes heap insertRoute with_heap name].
  rewrite lookup_insert_eq. apply list_lookup_middle. reflexivity.
Qed.

(** The names and objects a [register] call leaves alone. *)
Lemma register_others (s : Router) (n : string) (m : RequestMethod) (u : string) :
  (forall n', n' <> n -> route (snd (register s n m u)) n' = route s n')
  /\ (forall l r, heap s !! l = Some r ->
                  deref (snd (register s n m u)) l = Some r).
Proof.
  unfold route, deref.
  destruct (register_cases s n m u)
    as [(_ & _ & ->)|[(old & _ & _ & ->)|(_ & _ & ->)]];
    cbn [snd routes heap insertRoute with_heap name];
    (split; [intros n' Hne | intros l r Hr]);
    try done; try (by apply lookup_app_l_Some).
  by rewrite lookup_insert_ne.
Qed.

(** A call that throws writes neither map. *)
Lemma register_throws (s : Router) (n : string) (m : RequestMethod) (u : string)
    (e : error) :
  fst (register s n m u) = Throw e ->
  routes (snd (register s n m u)) = routes s
  /\ signatures (snd (register s n m u)) = signatures s.
Proof.
  destruct (register_cases s n m u)
    as [(_ & _ & ->)|[(old & _ & _ & ->)|(_ & _ & ->)]];
    cbn [fst snd]; try discriminate; done.
Qed.

Lemma owned_register (s : Router) (n : string) (m : RequestMethod) (u : string) :
  owned s -> owned (snd (register s n m u)).
Proof.
  intros (Hdup & Ha & Ho).
  assert (Hext : forall (x : Route) n' l',
             routes s !! n' = Some l' ->
             (heap s ++ [x]) !! l' = heap s !! l').
  { intros x n' l' Hn'. destruct (Ha n' l' Hn') as (r & Hr & _).
    rewrite Hr. by apply lookup_app_l_Some. }
  destruct (register_cases s n m u)
    as [(_ & _ & ->)|[(old & _ & _ & ->)|(_ & Hfree & ->)]];
    cbn [snd]; (split; [exact Hdup|split]);
    cbn [routes signatures heap config insertRoute with_heap name].
  - intros n' l' Hn'. rewrite (Hext _ n' l' Hn'). eauto.
  - intros n' l' r Hn'. rewrite (Hext _ n' l' Hn'). eauto.
  - intros n' l' Hn'. rewrite (Hext _ n' l' Hn'). eauto.
  - intros n' l' r Hn'. rewrite (Hext _ n' l' Hn'). eauto.
  - intros n' l' Hn'. apply lookup_insert_Some in Hn' as [[<- <-]|[Hne Hn']].
    + eexists. split; [apply list_lookup_middle; reflexivity|reflexivity].
    + rewrite (Hext _ n' l' Hn'). eauto.
  - specialize (Hfree Hdup).
    intros n' l' r Hn' Hr.
    apply lookup_insert_Some in Hn' as [[<- <-]|[Hne Hn']].
    + rewrite list_lookup_middle in Hr by reflexivity. injection Hr as <-.
      apply lookup_insert_eq.
    + rewrite (Hext _ n' l' Hn') in Hr.
      rewrite lookup_insert_ne; [eauto|].
      intros Heq. rewrite Heq, (Ho n' l' r Hn' Hr) in Hfree. discriminate.
Qed.

Lemma owned_exec (c : script) :
  registersOnly c = true -> forall s, owned s -> owned (snd (exec c s)).
Proof.
  induction c as [|n m u k IHk|l k IHk|p cb IHcb k IHk|body IHb k IHk|e];
    cbn [registersOnly exec]; intros Hc s Hs.
  - exact Hs.
  - pose proof (owned_register s n m u Hs) as H.
    unfold andThen. destruct (register s n m u) as [[[]|e] s'];
      cbn [snd] in *; auto.
  - discriminate.
  - apply andb_true_iff in Hc as [Hcb Hk].
    assert (H0 : owned (with_routePrefix (Some p) s)) by exact Hs.
    pose proof (IHcb Hcb _ H0) as H.
    unfold andThen, prefix.
    destruct (exec cb (with_routePrefix (Some p) s)) as [[[]|e] s'];
      cbn [snd] in *; [|exact H].
    apply IHk; [exact Hk|exact H].
  - apply andb_true_iff in Hc as [Hb Hk]. auto.
  - exact Hs.
Qed.

Lemma owned_new (cfg : ConfigurationInterface) (h : list Route) :
  duplicates cfg = false -> owned (new cfg h).
Proof.
  intros Hd. split; [exact Hd|].
  split; cbn; intros *; rewrite lookup_empty; done.
Qed.

Lemma registerRoute_stores (s : Router) (l : ref) (route0 : Route) :
  heap s !! l = Some route0 ->
  fst (registerRoute s l) = Ok tt ->
  routeNamed (snd (registerRoute s l)) (name route0)
  = Some (prefixed s route0).
Proof.
  intros Hl.
  destruct (registerRoute_registered s l)
    as [H|x H Hi Hx|x old H Hfree Hdup Hsig|x H Hfree Hsig];
    cbn [fst snd]; try discriminate.
  intros _. rewrite Hl in H. injection H as <-.
  unfold routeNamed, route, deref.
  cbn [routes heap insertRoute with_heap].
  rewrite name_prefixed, lookup_insert_eq.
  apply list_lookup_insert_eq. by eapply lookup_lt_Some.
Qed.


Lemma registerRoute_immutable (s : Router) (l : ref) (route0 : Route) :
  heap s !! l = Some route0 ->
  immutable (config s) = true -> is_Some (routes s !! name route0) ->
  registerRoute s l
  = (Throw (RegistrationError (immutable_message (name route0))), s).
Proof.
  intros Hl Himm Hn. unfold registerRoute. rewrite Hl, Himm.
  by rewrite bool_decide_eq_true_2.
Qed.

End RouterRegister.

Section RouterClaims.

Import Router.

(** C3 (amended): in every state a router can reach, under every
    configuration, each entry of [signatures] names a route that is in
    [routes]; and when the router is immutable and duplicates are off,
    the two maps are in one-to-one correspondence (and of equal size):
    [n -> r] is in [routes] exactly when [METHOD:url of r -> n] is in
    [signatures]. *)
Theorem C3_signatures_name_stored_routes :
  forall (cfg : ConfigurationInterface) (s : Router),
    reachable cfg s ->
    (forall sig n, signatures s !! sig = Some n -> is_Some (routes s !! n))
    /\ (immutable cfg = true -> duplicates cfg = false ->
        one_to_one s /\ size (routes s) = size (signatures s)).
Proof.
  intros cfg s Hs. split.
  - apply (reachable_consistent cfg s Hs).
  - intros Hi Hd. apply (reachable_strict cfg s Hi Hd Hs).
Qed.

Lemma C3_signatures_name_stored_routes_witness :
  let s := snd (exec (Register "r1" GET "/a" (Register "r2" POST "/a" Done))
                  (new {| immutable := true; duplicates := false |} [])) in
  (forall sig n, signatures s !! sig = Some n -> is_Some (routes s !! n))
  /\ one_to_one s /\ size (routes s) = size (signatures s).
Proof.
  intros s.
  destruct (C3_signatures_name_stored_routes
              {| immutable := true; duplicates := false |} s) as [H1 H2].
  - exists [], (Register "r1" GET "/a" (Register "r2" POST "/a" Done)).
    reflexivity.
  - split; [exact H1 | exact (H2 eq_refl eq_refl)].
Defined.

(** C3 as stated fails under the default configuration (a name
    registered again under another url leaves its old signature behind)
    and with [duplicates: true] (two names share one signature). *)
Lemma C3_counterexample :
  let renamed :=
    snd (exec (Register "r1" GET "/a" (Register "r1" GET "/b" Done))
           (new defaults [])) in
  let aliases := {| immutable := false; duplicates := true |} in
  let aliased :=
    snd (exec (Register "r1" GET "/a" (Register "r2" GET "/a" Done))
           (new aliases [])) in
  (reachable defaults renamed
   /\ ~ one_to_one renamed
   /\ size (routes renamed) = 1 /\ size (signatures renamed) = 2)
  /\ (reachable aliases aliased
      /\ ~ one_to_one aliased
      /\ size (routes aliased) = 2 /\ size (signatures aliased) = 1).
Proof.
  intros renamed aliases aliased. split.
  - split; [by eexists _, _|]. split; [|split; reflexivity].
    intros [_ H2].
    destruct (H2 "GET:/a" "r1") as (l & r & Hl & Hr & Hsig);
      [reflexivity|].
    vm_compute in Hl. injection Hl as <-.
    vm_compute in Hr. injection Hr as <-.
    vm_compute in Hsig. discriminate.
  - split; [by eexists _, _|]. split; [|split; reflexivity].
    intros [H1 _].
    assert (H : signatures aliased
                !! signatureOf {| name := "r1"; method := GET; url := "/a" |}
                = Some "r1") by (apply (H1 "r1" 0); reflexivity).
    vm_compute in H. discriminate.
Qed.

End RouterClaims.

Section RouterClaims2.

Import Router.

Lemma registerRoute_duplicate (s : Router) (l : ref) (route0 : Route)
    (owner : string) :
  immutable (config s) = false -> duplicates (config s) = false ->
  heap s !! l = Some route0 ->
  signatures s !! signatureOf (prefixed s route0) = Some owner ->
  registerRoute s l
  = (Throw (RegistrationError (duplicate_message (name route0) owner)),
     with_heap (<[l := prefixed s route0]> (heap s)) s).
Proof.
  intros Himm Hdup Hl Hsig.
  destruct (registerRoute_registered s l)
    as [Hl'|r Hl' Hi Hn|r old Hl' Hfree _ Hsig'|r Hl' Hfree Hsig'];
    try congruence.
  - rewrite Hl in Hl'. injection Hl' as <-.
    rewrite Hsig in Hsig'. injection Hsig' as <-.
    by rewrite name_prefixed.
  - rewrite Hl in Hl'. injection Hl' as <-.
    specialize (Hsig' Hdup). congruence.
Qed.

(** C5: under the default configuration, registering a method and url
    that a registered route already has fails with a [RegistrationError]
    whose message names the route that owns the signature (the registered
    route itself, when callers only use [register]), and the
    failed call leaves both maps, the prefix and every other route object
    as they were ([register] makes its own route object, [registerRoute]
    puts the prefix on the one it is given); with [duplicates: true] the
    call succeeds, the new name resolves to the new route and every other
    name resolves as before.  The scenario of the specification comes out
    as it says. *)
Theorem C5_duplicate_signature_rejected_or_allowed :
  (forall (s : Router) (n1 : string) (l1 : ref) (r1 : Route)
          (n2 u : string),
      reachable defaults s ->
      routes s !! n1 = Some l1 -> heap s !! l1 = Some r1 ->
      prefixedUrl s u = url r1 ->
      exists owner,
        signatures s !! signatureOf r1 = Some owner
        /\ is_Some (routes s !! owner)
        /\ fst (register s n2 (method r1) u)
           = Throw (RegistrationError (duplicate_message n2 owner))
        /\ routes (snd (register s n2 (method r1) u)) = routes s
        /\ signatures (snd (register s n2 (method r1) u)) = signatures s
        /\ routePrefix (snd (register s n2 (method r1) u)) = routePrefix s
        /\ (forall l r, heap s !! l = Some r ->
                        deref (snd (register s n2 (method r1) u)) l = Some r))
  /\ (forall (h : list Route) (c : script) (n1 : string) (l1 : ref)
             (r1 : Route) (n2 u : string),
        let s := snd (exec c (new defaults h)) in
        registersOnly c = true ->
        routes s !! n1 = Some l1 -> heap s !! l1 = Some r1 ->
        prefixedUrl s u = url r1 ->
        fst (register s n2 (method r1) u)
        = Throw (RegistrationError (duplicate_message n2 n1)))
  /\ (forall (s : Router) (n1 : string) (l1 : ref) (r1 : Route)
             (l2 : ref) (r2 : Route),
        reachable defaults s ->
        routes s !! n1 = Some l1 -> heap s !! l1 = Some r1 ->
        heap s !! l2 = Some r2 ->
        method r2 = method r1 -> prefixedUrl s (url r2) = url r1 ->
        exists owner,
          signatures s !! signatureOf r1 = Some owner
          /\ is_Some (routes s !! owner)
          /\ fst (registerRoute s l2)
             = Throw (RegistrationError (duplicate_message (name r2) owner))
          /\ routes (snd (registerRoute s l2)) = routes s
          /\ signatures (snd (registerRoute s l2)) = signatures s
          /\ routePrefix (snd (registerRoute s l2)) = routePrefix s
          /\ (forall l, l <> l2 ->
                        deref (snd (registerRoute s l2)) l = deref s l))
  /\ (forall (s : Router) (n2 : string) (m : RequestMethod) (u : string),
        duplicates (config s) = true -> immutable (config s) = false ->
        fst (register s n2 m u) = Ok tt
        /\ routeNamed (snd (register s n2 m u)) n2
           = Some {| name := n2; method := m; url := prefixedUrl s u |}
        /\ (forall n, n <> n2 ->
                      route (snd (register s n2 m u)) n = route s n)
        /\ (forall l r, heap s !! l = Some r ->
                        deref (snd (register s n2 m u)) l = Some r))
  /\ (let s1 := snd (register (new defaults []) "r1" GET "/a") in
      fst (register (new defaults []) "r1" GET "/a") = Ok tt
      /\ fst (register s1 "r2" GET "/a")
         = Throw (RegistrationError
                    "Route 'r2' is a duplicate of existing route 'r1'. If you want to enable multiple aliases for the same url and method combination, set 'duplicates' option as true.")
      /\ routes (snd (register s1 "r2" GET "/a")) = routes s1
      /\ signatures (snd (register s1 "r2" GET "/a")) = signatures s1
      /\ routeNamed (snd (register s1 "r2" GET "/a")) "r2" = None)
  /\ (let cfg := {| immutable := false; duplicates := true |} in
      let s1 := snd (register (new cfg []) "r1" GET "/a") in
      let s2 := snd (register s1 "r2" GET "/a") in
      fst (register (new cfg []) "r1" GET "/a") = Ok tt
      /\ fst (register s1 "r2" GET "/a") = Ok tt
      /\ routeNamed s2 "r1" = Some {| name := "r1"; method := GET; url := "/a" |}
      /\ routeNamed s2 "r2" = Some {| name := "r2"; method := GET; url := "/a" |}
      /\ route s2 "r1" <> route s2 "r2").
Proof.
  split; [|split; [|split; [|split; [|split]]]].
  - intros s n1 l1 r1 n2 u Hs Hn1 Hl1 Hu.
    pose proof (reachable_config _ _ Hs) as Hcfg.
    destruct (reachable_consistent _ _ Hs) as (Ha & Hb & Hc).
    destruct (Hc n1 l1 r1 Hn1 Hl1) as [owner Howner].
    exists owner. split; [done|]. split; [eauto|].
    assert (Hsig : signatureOf {| name := n2; method := method r1;
                                  url := prefixedUrl s u |} = signatureOf r1)
      by (unfold signatureOf; cbn [method url]; by rewrite Hu).
    destruct (register_cases s n2 (method r1) u)
      as [(Hi & _)|[(old & _ & Hold & ->)|(_ & Hfree & _)]].
    + rewrite Hcfg in Hi. discriminate.
    + rewrite Hsig, Howner in Hold. injection Hold as <-.
      cbn [fst snd routes signatures routePrefix with_heap].
      repeat split; try done.
      intros l r Hr. unfold deref. cbn [heap with_heap].
      by apply lookup_app_l_Some.
    + rewrite Hcfg, Hsig, Howner in Hfree. by specialize (Hfree eq_refl).
  - intros h c n1 l1 r1 n2 u s Hc Hn1 Hl1 Hu.
    assert (Hs : owned s)
      by (apply owned_exec; [exact Hc | by apply owned_new]).
    destruct Hs as (Hdup & Ha & Ho).
    pose proof (exec_config c (new defaults h)) as Hcfg.
    fold s in Hcfg. cbn [config new] in Hcfg.
    assert (Hsig : signatureOf {| name := n2; method := method r1;
                                  url := prefixedUrl s u |} = signatureOf r1)
      by (unfold signatureOf; cbn [method url]; by rewrite Hu).
    destruct (register_cases s n2 (method r1) u)
      as [(Hi & _)|[(old & _ & Hold & ->)|(_ & Hfree & _)]].
    + rewrite Hcfg in Hi. discriminate.
    + rewrite Hsig, (Ho n1 l1 r1 Hn1 Hl1) in Hold. by injection Hold as <-.
    + rewrite Hsig, (Ho n1 l1 r1 Hn1 Hl1) in Hfree. by specialize (Hfree Hdup).
  - intros s n1 l1 r1 l2 r2 Hs Hn1 Hl1 Hl2 Hm Hu.
    pose proof (reachable_config _ _ Hs) as Hcfg.
    destruct (reachable_consistent _ _ Hs) as (Ha & Hb & Hc).
    destruct (Hc n1 l1 r1 Hn1 Hl1) as [owner Howner].
    exists owner. split; [done|]. split; [eauto|].
    rewrite (registerRoute_duplicate s l2 r2 owner).
    + cbn [fst snd routes signatures routePrefix with_heap].
      repeat split; try done.
      intros l Hne. unfold deref. cbn [heap with_heap].
      by rewrite list_lookup_insert_ne.
    + by rewrite Hcfg.
    + by rewrite Hcfg.
    + exact Hl2.
    + unfold signatureOf in *.
      by rewrite method_prefixed, url_prefixed, Hm, Hu.
  - intros s n2 m u Hdup Himm.
    assert (Hok : fst (register s n2 m u) = Ok tt).
    { destruct (register_cases s n2 m u)
        as [(Hi & _)|[(old & Hd & _)|(_ & _ & ->)]]; [congruence..|done]. }
    split; [exact Hok|]. split; [by apply register_stores|].
    apply register_others.
  - repeat split; vm_compute; reflexivity.
  - repeat split; try (vm_compute; reflexivity). vm_compute. discriminate.
Qed.

Lemma C5_duplicate_signature_rejected_or_allowed_witness :
  let s1 := snd (register (new defaults []) "r1" GET "/a") in
  (exists owner,
      signatures s1 !! "GET:/a" = Some owner
      /\ fst (register s1 "r2" GET "/a")
         = Throw (RegistrationError (duplicate_message "r2" owner)))
  /\ fst (register (new {| immutable := false; duplicates := true |} [])
            "r2" GET "/a") = Ok tt.
Proof.
  intros s1. split.
  - destruct (proj1 C5_duplicate_signature_rejected_or_allowed
                s1 "r1" 0 {| name := "r1"; method := GET; url := "/a" |}
                "r2" "/a")
      as (owner & H1 & _ & H2 & _).
    + exists [], (Register "r1" GET "/a" Done). reflexivity.
    + reflexivity.
    + reflexivity.
    + reflexivity.
    + exists owner. split; [exact H1 | exact H2].
  - apply (proj1 (proj2 (proj2 (proj2
             C5_duplicate_signature_rejected_or_allowed)))); reflexivity.
Defined.

(** C9 as stated fails: a callback that throws (here its second
    registration is a duplicate) leaves [routePrefix] set, and a route
    registered afterwards, outside any callback, gets the prefix; and a
    callback that calls [prefix] itself returns to a cleared
    [routePrefix], so what it registers after that gets no prefix. *)
Lemma C9_counterexample :
  let callback := Register "a" GET "/x" (Register "b" GET "/x" Done) in
  let s := snd (prefix "/api" (exec callback) (new defaults [])) in
  let nested :=
    Prefix "/v1" (Register "users" GET "/users" Done)
      (Register "ping" GET "/ping" Done) in
  let s' := snd (prefix "/api" (exec nested) (new defaults [])) in
  (fst (prefix "/api" (exec callback) (new defaults []))
   = Throw (RegistrationError (duplicate_message "b" "a"))
   /\ routePrefix s = Some "/api"
   /\ fst (get s "home" "/home") = Ok tt
   /\ routeNamed (snd (get s "home" "/home")) "home"
      = Some {| name := "home"; method := GET; url := "/api/home" |})
  /\ (fst (prefix "/api" (exec nested) (new defaults [])) = Ok tt
      /\ routeNamed s' "ping"
         = Some {| name := "ping"; method := GET; url := "/ping" |}).
Proof. intros callback s nested s'. repeat split; reflexivity. Qed.

(** C9 (amended): when the callback returns, [prefix] leaves
    [routePrefix] cleared; no registration call changes [routePrefix];
    a registration made while [routePrefix] holds a prefix, by
    [register] or by [registerRoute] on a route object of the caller,
    stores the route under the prefixed url, and one made while it is
    [null] stores the url as given; [get], [post], [put], [patch] and
    [delete] are [register] with their method.  The scenario of the
    specification comes out as it says. *)
Theorem C9_prefix_cleared_when_callback_returns :
  (forall (p : string) (callback : Router -> result unit * Router)
          (s s2 : Router),
      callback (with_routePrefix (Some p) s) = (Ok tt, s2) ->
      prefix p callback s = (Ok tt, with_routePrefix None s2)
      /\ routePrefix (snd (prefix p callback s)) = None)
  /\ (forall (s : Router) (n : string) (m : RequestMethod) (u : string),
        routePrefix (snd (register s n m u)) = routePrefix s)
  /\ (forall (s : Router) (l : ref),
        routePrefix (snd (registerRoute s l)) = routePrefix s)
  /\ (forall (s : Router) (p n : string) (m : RequestMethod) (u : string),
        routePrefix s = Some p -> fst (register s n m u) = Ok tt ->
        routeNamed (snd (register s n m u)) n
        = Some {| name := n; method := m; url := p +:+ u |})
  /\ (forall (s : Router) (n : string) (m : RequestMethod) (u : string),
        routePrefix s = None -> fst (register s n m u) = Ok tt ->
        routeNamed (snd (register s n m u)) n
        = Some {| name := n; method := m; url := u |})
  /\ (forall (s : Router) (p : string) (l : ref) (route0 : Route),
        routePrefix s = Some p -> heap s !! l = Some route0 ->
        fst (registerRoute s l) = Ok tt ->
        routeNamed (snd (registerRoute s l)) (name route0)
        = Some {| name := name route0; method := method route0;
                  url := p +:+ url route0 |})
  /\ (forall (s : Router) (l : ref) (route0 : Route),
        routePrefix s = None -> heap s !! l = Some route0 ->
        fst (registerRoute s l) = Ok tt ->
        routeNamed (snd (registerRoute s l)) (name route0) = Some route0)
  /\ (forall (s : Router) (n u : string),
        get s n u = register s n GET u
        /\ post s n u = register s n POST u
        /\ put s n u = register s n PUT u
        /\ patch s n u = register s n PATCH u
        /\ delete s n u = register s n DELETE u)
  /\ (let s := snd (exec (Prefix "/api" (Register "ping" GET "/ping" Done)
                            (Register "home" GET "/home" Done))
                      (new defaults [])) in
      routePrefix s = None
      /\ routeNamed s "ping"
         = Some {| name := "ping"; method := GET; url := "/api/ping" |}
      /\ routeNamed s "home"
         = Some {| name := "home"; method := GET; url := "/home" |}).
Proof.
  split; [|split; [|split; [|split; [|split; [|split; [|split; [|split]]]]]]].
  - intros p callback s s2 Hcb. unfold prefix. rewrite Hcb. done.
  - intros. apply register_frame.
  - intros. apply registerRoute_frame.
  - intros s p n m u Hp Hok. rewrite (register_stores s n m u Hok).
    unfold prefixedUrl. by rewrite Hp.
  - intros s n m u Hp Hok. rewrite (register_stores s n m u Hok).
    unfold prefixedUrl. by rewrite Hp.
  - intros s p l route0 Hp Hl Hok.
    rewrite (registerRoute_stores s l route0 Hl Hok).
    unfold prefixed. by rewrite Hp.
  - intros s l route0 Hp Hl Hok.
    rewrite (registerRoute_stores s l route0 Hl Hok).
    unfold prefixed. by rewrite Hp.
  - intros s n u. repeat split; reflexivity.
  - repeat split; reflexivity.
Qed.

Lemma C9_prefix_cleared_when_callback_returns_witness :
  routePrefix
    (snd (prefix "/api" (fun r => get r "ping" "/ping") (new defaults [])))
  = None
  /\ routeNamed
       (snd (register (with_routePrefix (Some "/api") (new defaults []))
               "ping" GET "/ping")) "ping"
     = Some {| name := "ping"; method := GET; url := "/api/ping" |}
  /\ routeNamed (snd (register (new defaults []) "home" GET "/home")) "home"
     = Some {| name := "home"; method := GET; url := "/home" |}
  /\ routeNamed
       (snd (registerRoute
               (with_routePrefix (Some "/api")
                  (new defaults
                     [{| name := "users"; method := POST; url := "/users" |}]))
               0)) "users"
     = Some {| name := "users"; method := POST; url := "/api/users" |}.
Proof.
  split; [|split; [|split]]; cycle 3.
  - exact (proj1 (proj2 (proj2 (proj2 (proj2 (proj2
             C9_prefix_cleared_when_callback_returns)))))
             (with_routePrefix (Some "/api")
                (new defaults
                   [{| name := "users"; method := POST; url := "/users" |}]))
             "/api" 0 {| name := "users"; method := POST; url := "/users" |}
             eq_refl eq_refl eq_refl).
  - eapply (proj1 C9_prefix_cleared_when_callback_returns). reflexivity.
  - exact (proj1 (proj2 (proj2 (proj2
             C9_prefix_cleared_when_callback_returns)))
             (with_routePrefix (Some "/api") (new defaults []))
             "/api" "ping" GET "/ping" eq_refl eq_refl).
  - exact (proj1 (proj2 (proj2 (proj2 (proj2
             C9_prefix_cleared_when_callback_returns))))
             (new defaults []) "home" GET "/home" eq_refl eq_refl).
Defined.

End RouterClaims2.

(* ===================================================================== *)
(** ** More on the binder                                                 *)
(* ===================================================================== *)

Section TrailingSlashes.

Import Binder.

Lemma length_append (a b : string) :
  String.length (a +:+ b) = String.length a + String.length b.
Proof.
  induction a as [|x a IH]; [reflexivity|].
  change (S (String.length (a +:+ b)) = S (String.length a + String.length b)).
  by rewrite IH.
Qed.

Lemma substring_after (a : string) (c : ascii) :
  substring (String.length a) 1 (a +:+ String c EmptyString)
  = String c EmptyString.
Proof. induction a as [|x a IH]; [reflexivity | exact IH]. Qed.

Lemma substring_before (a : string) (c : ascii) :
  substring 0 (String.length a) (a +:+ String c EmptyString) = a.
Proof.
  induction a as [|x a IH]; [reflexivity|].
  change (String x (substring 0 (String.length a)
                      (a +:+ String c EmptyString)) = String x a).
  by rewrite IH.
Qed.

Lemma slice_last_snoc (a : string) (c : ascii) :
  JS.slice_last (a +:+ String c EmptyString) = String c EmptyString.
Proof.
  unfold JS.slice_last. rewrite length_append. cbn [String.length].
  replace (String.length a + 1 - 1) with (String.length a) by lia.
  apply substring_after.
Qed.

Lemma slice_init_snoc (a : string) (c : ascii) :
  JS.slice_init (a +:+ String c EmptyString) = a.
Proof.
  unfold JS.slice_init. rewrite length_append. cbn [String.length].
  replace (String.length a + 1 - 1) with (String.length a) by lia.
  apply substring_before.
Qed.

Lemma length_slashes (k : nat) : String.length (slashes k) = k.
Proof.
  induction k as [|k IH]; [reflexivity|].
  cbn [slashes]. rewrite length_append, IH. cbn. lia.
Qed.

Lemma removeTrailingSlashes_loop_strips (s : string) (k rounds : nat) :
  JS.slice_last s <> "/" -> k <= rounds ->
  removeTrailingSlashes_loop rounds (s +:+ slashes k) = s.
Proof.
  intros Hs. revert rounds; induction k as [|k IH]; intros rounds Hk.
  - cbn [slashes]. rewrite append_empty_r.
    destruct rounds; [reflexivity|]. cbn [removeTrailingSlashes_loop].
    by rewrite (proj2 (String.eqb_neq _ _) Hs).
  - destruct rounds as [|rounds]; [lia|].
    cbn [slashes removeTrailingSlashes_loop].
    rewrite <- append_assoc, slice_last_snoc, slice_init_snoc.
    cbn. apply IH. lia.
Qed.

(** X1: [removeTrailingSlashes] removes exactly the run of slashes a url
    ends in: a url that does not end in a slash, followed by any number
    of slashes, comes back as that url; a url of slashes only comes back
    empty; and stripping twice is stripping once. *)
Theorem X1_removeTrailingSlashes_strips_the_run :
  (forall (s : string) (k : nat),
      JS.slice_last s <> "/" ->
      removeTrailingSlashes (s +:+ slashes k) = s)
  /\ (forall k, removeTrailingSlashes (slashes k) = "")
  /\ (forall uri,
        removeTrailingSlashes (removeTrailingSlashes uri)
        = removeTrailingSlashes uri).
Proof.
  assert (H : forall s k, JS.slice_last s <> "/" ->
                          removeTrailingSlashes (s +:+ slashes k) = s).
  { intros s k Hs. unfold removeTrailingSlashes.
    apply removeTrailingSlashes_loop_strips; [exact Hs|].
    rewrite length_append, length_slashes. lia. }
  split; [exact H|]. split.
  - intros k. apply (H "" k). discriminate.
  - intros uri.
    pose proof (H (removeTrailingSlashes uri) 0
                  (removeTrailingSlashes_no_slash uri)) as H0.
    cbn [slashes] in H0. by rewrite append_empty_r in H0.
Qed.

Lemma X1_removeTrailingSlashes_strips_the_run_witness :
  removeTrailingSlashes "/users/42/posts///" = "/users/42/posts".
Proof.
  exact (proj1 X1_removeTrailingSlashes_strips_the_run
           "/users/42/posts" 3 ltac:(discriminate)).
Defined.

End TrailingSlashes.

Section BindOutcomes.

Import Binder.

Lemma hex_digit_no_slash (k : nat) : JS.hex_digit k <> "/"%char.
Proof.
  unfold JS.hex_digit.
  do 16 (destruct k as [|k]; [discriminate|]). destruct k; discriminate.
Qed.

Lemma unreserved_no_slash (c : ascii) :
  JS.is_unreserved c = true -> c <> "/"%char.
Proof. intros H ->. discriminate. Qed.

Lemma slice_last_snoc_no_slash (a : string) (c : ascii) :
  c <> "/"%char -> JS.slice_last (a +:+ String c EmptyString) <> "/".
Proof. rewrite slice_last_snoc. congruence. Qed.

(** Percent-encoding never ends a url in a slash. *)
Lemma encode_no_slash (s x : string) :
  JS.slice_last x <> "/" ->
  JS.slice_last (x +:+ JS.encodeURIComponent s) <> "/".
Proof.
  revert x; induction s as [|c s IH]; intros x Hx.
  - cbn [JS.encodeURIComponent]. by rewrite append_empty_r.
  - cbn [JS.encodeURIComponent].
    destruct (JS.is_unreserved c) eqn:Hc.
    + change (String c (JS.encodeURIComponent s))
        with (String c EmptyString +:+ JS.encodeURIComponent s).
      rewrite <- append_assoc. apply IH.
      apply slice_last_snoc_no_slash, unreserved_no_slash, Hc.
    + set (h1 := JS.hex_digit (nat_of_ascii c / 16)).
      set (h2 := JS.hex_digit (nat_of_ascii c mod 16)).
      change (String "%" (String h1 (String h2 (JS.encodeURIComponent s))))
        with (("%" +:+ String h1 EmptyString) +:+ String h2 EmptyString
              +:+ JS.encodeURIComponent s).
      rewrite <- !append_assoc. apply IH.
      apply slice_last_snoc_no_slash, hex_digit_no_slash.
Qed.

Lemma bindGetParameters_loop_no_slash (entries : object) (uri : string) :
  JS.slice_last uri <> "/" ->
  JS.slice_last (bindGetParameters_loop uri entries) <> "/".
Proof.
  revert uri; induction entries as [|[k v] entries IH]; intros uri Huri;
    cbn [bindGetParameters_loop]; [exact Huri|].
  apply IH. rewrite <- !append_assoc. apply encode_no_slash.
  apply slice_last_snoc_no_slash; [discriminate].
Qed.

Lemma bindParameter_ok_no_slash (this : UriParameterBinder) (uri : string)
    (p : UriParameter) (v : value) (config : Configuration) (u : string) :
  bindParameter this uri (ByRef p) v config = Ok u -> JS.slice_last u <> "/".
Proof.
  assert (H : forall w, bindResolved this uri p w = Ok u ->
                        JS.slice_last u <> "/").
  { intros w. unfold bindResolved.
    destruct (convertToString this w) as [s|e].
    - destruct (required p && JS.isEmpty s).
      + destruct w; discriminate.
      + intros [= <-]. apply removeTrailingSlashes_no_slash.
    - destruct (isTypeConversionError e); discriminate. }
  unfold bindParameter. cbn [resolve].
  destruct v; try apply H. destruct (required p); [discriminate|apply H].
Qed.

Lemma bindObject_loop_no_slash (this : UriParameterBinder)
    (ps : UriParameterCollection) (uri : string) (obj : object)
    (config : Configuration) (u : string) :
  ps <> [] \/ JS.slice_last uri <> "/" ->
  fst (bindObject_loop this ps uri obj config) = Ok u ->
  JS.slice_last u <> "/".
Proof.
  revert uri obj; induction ps as [|p ps IH]; intros uri obj Hor;
    cbn [bindObject_loop].
  - destruct Hor as [?|Huri]; [done|]. by intros [= <-].
  - destruct (bindParameter this uri (ByRef p) (JS.get obj (name p)) config)
      as [uri'|e] eqn:Hb; [|discriminate].
    apply IH. right. eapply bindParameter_ok_no_slash, Hb.
Qed.

Lemma bindArray_loop_no_slash (this : UriParameterBinder)
    (ps : UriParameterCollection) (i : nat) (uri : string)
    (array : list value) (config : Configuration) (u : string) :
  ps <> [] \/ JS.slice_last uri <> "/" ->
  bindArray_loop this ps i uri array config = Ok u ->
  JS.slice_last u <> "/".
Proof.
  revert i uri; induction ps as [|p ps IH]; intros i uri Hor;
    cbn [bindArray_loop].
  - destruct Hor as [?|Huri]; [done|]. by intros [= <-].
  - destruct (bindParameter this uri (ByRef p) (JS.index array i) config)
      as [uri'|e] eqn:Hb; [|discriminate].
    apply IH. right. eapply bindParameter_ok_no_slash, Hb.
Qed.

(** X3: when the template has a placeholder, the url [bind] returns
    never ends in a slash, whatever the values are (array, object with or
    without query parameters, scalar): every substitution strips the
    trailing slashes, and percent-encoding writes none. *)
Theorem X3_bound_url_has_no_trailing_slash :
  forall (this : UriParameterBinder) (values : value)
         (config : option Configuration) (u : string),
    parameters this <> [] ->
    fst (bind this values config) = Ok u ->
    JS.slice_last u <> "/".
Proof.
  intros this values config u Hps. unfold bind.
  destruct (parameters this) as [|p ps] eqn:Heq; [done|].
  cbn [length Nat.eqb andb].
  assert (Hv : forall v, bindValue this (uri this) v (effective this config)
                         = Ok u -> JS.slice_last u <> "/").
  { intros v. unfold bindValue. rewrite Heq.
    destruct (1 <? length (Collection.getRequired (p :: ps)));
      [discriminate|].
    cbn [at_index nth_error]. apply bindParameter_ok_no_slash. }
  destruct values; cbn [fst]; try apply Hv.
  - unfold bindArray. rewrite Heq.
    apply bindArray_loop_no_slash. by left.
  - destruct (bindObject this (uri this) props (effective this config))
      as [r o] eqn:Hb.
    pose proof (fst_bindObject this (uri this) props (effective this config))
      as Hf.
    rewrite Hb in Hf. cbn [fst] in *. intros ->.
    destruct (fst (bindObject_loop this (parameters this) (uri this) props
                     (effective this config))) as [u'|e'] eqn:Hloop;
      [|discriminate].
    assert (Hu' : JS.slice_last u' <> "/").
    { eapply bindObject_loop_no_slash; [|exact Hloop]. left. by rewrite Heq. }
    destruct (Config.bindGetParameters (effective this config));
      injection Hf as ->; [|exact Hu'].
    by apply bindGetParameters_loop_no_slash.
Qed.

Lemma X3_bound_url_has_no_trailing_slash_witness :
  JS.slice_last "/users/42/posts" <> "/".
Proof.
  apply (X3_bound_url_has_no_trailing_slash
           {| uri := "/users/{id}/posts/{slug?}";
              parameters :=
                [{| name := "id"; required := true; placeholder := "{id}" |};
                 {| name := "slug"; required := false;
                    placeholder := "{slug?}" |}];
              configuration := exampleConfiguration true |}
           (VObj [("id", VNum 42)]) None).
  - discriminate.
  - vm_compute. reflexivity.
Defined.

End BindOutcomes.

Section ArrayBinding.

Import Binder.

Lemma bindArray_loop_app (this : UriParameterBinder)
    (ps : UriParameterCollection) (i : nat) (uri : string)
    (array extra : list value) (config : Configuration) :
  i + length ps <= length array ->
  bindArray_loop this ps i uri (array ++ extra) config
  = bindArray_loop this ps i uri array config.
Proof.
  revert i uri; induction ps as [|p ps IH]; intros i uri Hlen;
    cbn [bindArray_loop]; [reflexivity|].
  cbn [length] in Hlen.
  unfold JS.index. rewrite app_nth1 by lia.
  destruct (bindParameter this uri (ByRef p) (nth i array VUndefined) config);
    [|reflexivity].
  apply IH. lia.
Qed.

(** X4: positional binding reads one array element per parameter and
    nothing else: elements past the last parameter do not change what
    [bind] returns or throws. *)
Theorem X4_array_elements_past_the_parameters_are_ignored :
  forall (this : UriParameterBinder) (array extra : list value)
         (config : option Configuration),
    length (parameters this) <= length array ->
    fst (bind this (VArr (array ++ extra)) config)
    = fst (bind this (VArr array) config).
Proof.
  intros this array extra config Hlen. unfold bind.
  destruct ((length (parameters this) =? 0)
            && negb (Config.bindGetParameters (effective this config)));
    [reflexivity|].
  cbn [fst]. unfold bindArray. apply bindArray_loop_app. lia.
Qed.

Lemma X4_array_elements_past_the_parameters_are_ignored_witness :
  fst (bind {| uri := "/users/{id}";
               parameters := [{| name := "id"; required := true;
                                 placeholder := "{id}" |}];
               configuration := exampleConfiguration false |}
         (VArr ([VNum 42] ++ [VStr "more"; VNull])) None)
  = fst (bind {| uri := "/users/{id}";
                 parameters := [{| name := "id"; required := true;
                                   placeholder := "{id}" |}];
                 configuration := exampleConfiguration false |}
           (VArr [VNum 42]) None).
Proof.
  apply X4_array_elements_past_the_parameters_are_ignored. cbn. lia.
Defined.

Lemma bindArray_loop_missing_required (this : UriParameterBinder)
    (ps : UriParameterCollection) (i j : nat) (uri : string)
    (array : list value) (config : Configuration) (p : UriParameter) :
  ps !! i = Some p -> required p = true ->
  JS.index array (j + i) = VUndefined ->
  exists msg,
    bindArray_loop this ps j uri array config
    = Throw (UriParameterBindingError msg None).
Proof.
  intros Hp Hreq. revert i j uri Hp.
  induction ps as [|q ps IH]; intros i j uri Hp Hidx; [done|].
  cbn [bindArray_loop]. destruct i as [|i].
  - injection Hp as ->. rewrite Nat.add_0_r in Hidx. rewrite Hidx.
    destruct (bindParameter_missing_required this uri p config Hreq)
      as [msg ->]. eauto.
  - destruct (bindParameter this uri (ByRef q) (JS.index array j) config)
      as [uri'|e] eqn:Hb.
    + apply (IH i (S j)); [exact Hp|].
      by replace (S j + i) with (j + S i) by lia.
    + destruct (bindParameter_ByRef_error _ _ _ _ _ _ Hb) as [msg ->]. eauto.
Qed.

(** X5: an array that has no value at the position of a required
    parameter (the element is [undefined], or the array is too short)
    makes [bind] fail with a [UriParameterBindingError]. *)
Theorem X5_array_without_a_required_value_fails :
  forall (this : UriParameterBinder) (array : list value)
         (config : option Configuration) (i : nat) (p : UriParameter),
    parameters this !! i = Some p -> required p = true ->
    (JS.index array i = VUndefined \/ length array <= i) ->
    exists msg,
      fst (bind this (VArr array) config)
      = Throw (UriParameterBindingError msg None).
Proof.
  intros this array config i p Hp Hreq Hidx.
  assert (Hu : JS.index array i = VUndefined).
  { destruct Hidx as [H|H]; [exact H|]. unfold JS.index. by apply nth_overflow. }
  unfold bind.
  destruct (parameters this) as [|q ps] eqn:Hps; [done|].
  cbn [length Nat.eqb andb fst]. unfold bindArray. rewrite Hps.
  apply (bindArray_loop_missing_required this (q :: ps) i 0 _ _ _ p);
    assumption.
Qed.

Lemma X5_array_without_a_required_value_fails_witness :
  exists msg,
    fst (bind {| uri := "/a/{x}/{y}";
                 parameters :=
                   [{| name := "x"; required := true; placeholder := "{x}" |};
                    {| name := "y"; required := true; placeholder := "{y}" |}];
                 configuration := exampleConfiguration false |}
           (VArr [VNum 1]) None)
    = Throw (UriParameterBindingError msg None).
Proof.
  apply (X5_array_without_a_required_value_fails _ _ _ 1
           {| name := "y"; required := true; placeholder := "{y}" |}).
  - reflexivity.
  - reflexivity.
  - right. cbn. lia.
Defined.

Lemma delete_absent (o : object) (k : string) :
  JS.has o k = false -> JS.delete o k = o.
Proof.
  induction o as [|[k0 v0] o IH]; [reflexivity|].
  unfold JS.delete, JS.has in *. cbn [existsb fst filter list_filter].
  intros [H1 H2]%orb_false_elim.
  rewrite decide_bool_decide. cbn [fst]. rewrite H1. cbn [negb].
  rewrite bool_decide_eq_true_2 by (cbn; auto).
  f_equal. by apply IH.
Qed.

Lemma has_keyed (ps : UriParameterCollection) (i : nat) (array : list value)
    (k : string) :
  k ∉ map name ps -> JS.has (keyed ps i array) k = false.
Proof.
  revert i; induction ps as [|p ps IH]; intros i Hk; [reflexivity|].
  cbn [keyed]. unfold JS.has. cbn [existsb fst].
  cbn [map] in Hk. apply not_elem_of_cons in Hk as [Hne Hk].
  rewrite (proj2 (String.eqb_neq (name p) k)) by congruence.
  by apply IH.
Qed.

Lemma bindObject_loop_keyed (this : UriParameterBinder)
    (ps : UriParameterCollection) (i : nat) (uri : string)
    (array : list value) (config : Configuration) :
  NoDup (map name ps) ->
  fst (bindObject_loop this ps uri (keyed ps i array) config)
  = bindArray_loop this ps i uri array config
  /\ (forall u,
        fst (bindObject_loop this ps uri (keyed ps i array) config) = Ok u ->
        snd (bindObject_loop this ps uri (keyed ps i array) config) = []).
Proof.
  revert i uri; induction ps as [|p ps IH]; intros i uri Hnd.
  - by cbn [keyed bindObject_loop bindArray_loop].
  - apply NoDup_cons in Hnd as [Hp Hnd].
    cbn [keyed bindObject_loop bindArray_loop JS.get].
    rewrite String.eqb_refl.
    destruct (bindParameter this uri (ByRef p) (JS.index array i) config)
      as [uri'|e]; [|split; [reflexivity|discriminate]].
    assert (Hdel : JS.delete ((name p, JS.index array i)
                              :: keyed ps (S i) array) (name p)
                   = keyed ps (S i) array).
    { unfold JS.delete. cbn [filter list_filter].
      rewrite decide_bool_decide. cbn [fst].
      rewrite String.eqb_refl. cbn [negb].
      rewrite bool_decide_eq_false_2 by (cbn; auto).
      apply delete_absent, has_keyed, Hp. }
    rewrite Hdel. apply IH, Hnd.
Qed.

(** X6: positional and named binding agree.  When no two parameters
    share a name, binding an array gives what binding the object gives
    that holds, under the name of each parameter, the element of the
    array at the parameter's position ([undefined] past its end), and a
    successful call leaves that object empty. *)
Theorem X6_array_binding_is_object_binding_by_position :
  forall (this : UriParameterBinder) (array : list value)
         (config : option Configuration),
    NoDup (map name (parameters this)) ->
    fst (bind this (VObj (keyed (parameters this) 0 array)) config)
    = fst (bind this (VArr array) config)
    /\ (parameters this <> [] ->
        forall u, fst (bind this (VArr array) config) = Ok u ->
                  snd (bind this (VObj (keyed (parameters this) 0 array))
                         config)
                  = VObj []).
Proof.
  intros this array config Hnd.
  destruct (bindObject_loop_keyed this (parameters this) 0 (uri this) array
              (effective this config) Hnd) as [Hfst Hsnd].
  pose proof (fst_bindObject this (uri this) (keyed (parameters this) 0 array)
                (effective this config)) as Hf.
  pose proof (snd_bindObject this (uri this) (keyed (parameters this) 0 array)
                (effective this config)) as Hs.
  unfold bind.
  destruct (bindObject this (uri this) (keyed (parameters this) 0 array)
              (effective this config)) as [r o] eqn:Hb.
  cbn [fst snd] in Hf, Hs. subst r o.
  split.
  - destruct ((length (parameters this) =? 0)
              && negb (Config.bindGetParameters (effective this config)))
      eqn:Hshort; [reflexivity|].
    cbn [fst]. unfold bindArray. rewrite <- Hfst.
    destruct (fst (bindObject_loop this (parameters this) (uri this)
                     (keyed (parameters this) 0 array)
                     (effective this config)))
      as [u|e] eqn:Hloop; [|reflexivity].
    rewrite (Hsnd u eq_refl).
    by destruct (Config.bindGetParameters (effective this config)).
  - intros Hne u.
    destruct (parameters this) as [|p ps] eqn:Hps; [done|].
    cbn [length Nat.eqb andb fst snd]. unfold bindArray. rewrite Hps.
    rewrite <- Hfst. intros Hu. by rewrite (Hsnd u Hu).
Qed.

Lemma X6_array_binding_is_object_binding_by_position_witness :
  fst (bind {| uri := "/a/{x}/{constructor?}";
               parameters :=
                 [{| name := "x"; required := true; placeholder := "{x}" |};
                  {| name := "constructor"; required := false;
                     placeholder := "{constructor?}" |}];
               configuration := exampleConfiguration true |}
         (VObj [("x", VNum 1); ("constructor", VUndefined)]) None)
  = fst (bind {| uri := "/a/{x}/{constructor?}";
                 parameters :=
                   [{| name := "x"; required := true; placeholder := "{x}" |};
                    {| name := "constructor"; required := false;
                       placeholder := "{constructor?}" |}];
                 configuration := exampleConfiguration true |}
           (VArr [VNum 1]) None).
Proof.
  apply (X6_array_binding_is_object_binding_by_position
           {| uri := "/a/{x}/{constructor?}";
              parameters :=
                [{| name := "x"; required := true; placeholder := "{x}" |};
                 {| name := "constructor"; required := false;
                    placeholder := "{constructor?}" |}];
              configuration := exampleConfiguration true |}
           [VNum 1] None).
  cbn [parameters map name].
  apply NoDup_cons. split; [|apply NoDup_singleton].
  intros H%list_elem_of_singleton. discriminate.
Defined.

End ArrayBinding.

Section Configurations.

Import Binder.

Lemma bindObject_loop_config (this : UriParameterBinder)
    (ps : UriParameterCollection) (uri : string) (obj : object)
    (c1 c2 : Configuration) :
  bindObject_loop this ps uri obj c1 = bindObject_loop this ps uri obj c2.
Proof.
  revert uri obj; induction ps as [|p ps IH]; intros uri obj;
    cbn [bindObject_loop]; [reflexivity|].
  change (bindParameter this uri (ByRef p) (JS.get obj (name p)) c1)
    with (bindParameter this uri (ByRef p) (JS.get obj (name p)) c2).
  destruct (bindParameter this uri (ByRef p) (JS.get obj (name p)) c2);
    [apply IH | reflexivity].
Qed.

Lemma bindArray_loop_config (this : UriParameterBinder)
    (ps : UriParameterCollection) (i : nat) (uri : string)
    (array : list value) (c1 c2 : Configuration) :
  bindArray_loop this ps i uri array c1 = bindArray_loop this ps i uri array c2.
Proof.
  revert i uri; induction ps as [|p ps IH]; intros i uri;
    cbn [bindArray_loop]; [reflexivity|].
  change (bindParameter this uri (ByRef p) (JS.index array i) c1)
    with (bindParameter this uri (ByRef p) (JS.index array i) c2).
  destruct (bindParameter this uri (ByRef p) (JS.index array i) c2);
    [apply IH | reflexivity].
Qed.

(** X7: of a configuration passed to [bind] only [bindGetParameters] is
    read.  Its conversion function is not: [convertToString] calls the
    one the binder was built with, so two per-call configurations that
    agree on [bindGetParameters] give the same result and leave the same
    values. *)
Theorem X7_per_call_conversion_function_is_not_used :
  forall (this : UriParameterBinder) (values : value) (c1 c2 : Configuration),
    Config.bindGetParameters c1 = Config.bindGetParameters c2 ->
    bind this values (Some c1) = bind this values (Some c2).
Proof.
  intros this values c1 c2 Hbg. unfold bind. cbn [effective]. rewrite Hbg.
  destruct ((length (parameters this) =? 0)
            && negb (Config.bindGetParameters c2)); [reflexivity|].
  assert (Hv : forall v, bindValue this (uri this) v c1
                         = bindValue this (uri this) v c2) by reflexivity.
  destruct values; rewrite ?Hv; try reflexivity.
  - unfold bindArray. by rewrite (bindArray_loop_config this _ _ _ _ c1 c2).
  - unfold bindObject.
    rewrite (bindObject_loop_config this _ _ _ c1 c2), Hbg. reflexivity.
Qed.

Lemma X7_per_call_conversion_function_is_not_used_witness :
  bind {| uri := "/users/{id}";
          parameters := [{| name := "id"; required := true;
                            placeholder := "{id}" |}];
          configuration := exampleConfiguration false |}
    (VNum 42)
    (Some {| Config.bindGetParameters := false;
             Config.typeConversionFunction := fun _ => Some "zero" |})
  = bind {| uri := "/users/{id}";
            parameters := [{| name := "id"; required := true;
                              placeholder := "{id}" |}];
            configuration := exampleConfiguration false |}
      (VNum 42)
      (Some {| Config.bindGetParameters := false;
               Config.typeConversionFunction := fun _ => None |}).
Proof.
  apply X7_per_call_conversion_function_is_not_used. reflexivity.
Defined.

(** X9: a required parameter cannot be bound to nothing.  A string that
    is blank once trimmed is refused with the message for an empty
    string, and any other value whose conversion is blank with the
    message that names its type; an optional parameter takes the same
    values and is replaced by the empty string. *)
Theorem X9_blank_value_for_a_required_parameter_fails :
  forall (this : UriParameterBinder) (uri : string) (p : UriParameter)
         (config : Configuration),
    (forall s, required p = true -> JS.trim s = "" ->
       bindParameter this uri (ByRef p) (VStr s) config
       = Throw (UriParameterBindingError
                  ("Cannot bind empty string for required parameter "
                   +:+ name p +:+ ".") None))
    /\ (forall v s, required p = true ->
          v <> VUndefined -> (forall s', v <> VStr s') ->
          Config.typeConversionFunction (configuration this) v = Some s ->
          JS.trim s = "" ->
          bindParameter this uri (ByRef p) v config
          = Throw (UriParameterBindingError
                     ("Cannot bind given " +:+ JS.typeof v
                      +:+ " value for required parameter " +:+ name p
                      +:+ " because string conversion results in an empty string.")
                     None))
    /\ (forall s, required p = false -> JS.trim s = "" ->
          bindParameter this uri (ByRef p) (VStr s) config
          = Ok (removeTrailingSlashes (JS.replace uri (placeholder p) ""))).
Proof.
  intros this uri p config. split; [|split].
  - intros s Hreq Hs. unfold bindParameter, bindResolved, convertToString.
    cbn [resolve]. by rewrite Hs, Hreq.
  - intros v s Hreq Hu Hv Hconv Hs.
    unfold bindParameter. cbn [resolve].
    assert (H : bindResolved this uri p v
                = Throw (UriParameterBindingError
                           ("Cannot bind given " +:+ JS.typeof v
                            +:+ " value for required parameter " +:+ name p
                            +:+ " because string conversion results in an empty string.")
                           None)).
    { unfold bindResolved, convertToString.
      destruct v; try (rewrite Hconv, Hs, Hreq; reflexivity).
      by destruct (Hv s0). }
    destruct v; try exact H. done.
  - intros s Hreq Hs. unfold bindParameter, bindResolved, convertToString.
    cbn [resolve]. by rewrite Hs, Hreq.
Qed.

Lemma X9_blank_value_for_a_required_parameter_fails_witness :
  bindParameter
    {| uri := "/users/{id}";
       parameters := [{| name := "id"; required := true; placeholder := "{id}" |}];
       configuration := exampleConfiguration false |}
    "/users/{id}"
    (ByRef {| name := "id"; required := true; placeholder := "{id}" |})
    (VStr "   ") (exampleConfiguration false)
  = Throw (UriParameterBindingError
             "Cannot bind empty string for required parameter id." None).
Proof.
  exact (proj1 (X9_blank_value_for_a_required_parameter_fails
                  {| uri := "/users/{id}";
                     parameters := [{| name := "id"; required := true;
                                       placeholder := "{id}" |}];
                     configuration := exampleConfiguration false |}
                  "/users/{id}"
                  {| name := "id"; required := true; placeholder := "{id}" |}
                  (exampleConfiguration false))
           "   " eq_refl eq_refl).
Defined.

(** X10: the query of an empty template.  When the url built so far is
    empty, [bindGetParameters] leads the first pair with [?] and every
    later pair with [&]; so [bind] on an empty template without
    placeholders returns the query string alone. *)
Theorem X10_empty_template_gets_the_question_mark :
  forall (this : UriParameterBinder) (k : string) (v : value) (rest : object)
         (config : option Configuration),
    uri this = "" -> parameters this = [] ->
    Config.bindGetParameters (effective this config) = true ->
    fst (bind this (VObj ((k, v) :: rest)) config)
    = Ok ("?" +:+ JS.encodeURIComponent k +:+ "="
              +:+ JS.encodeURIComponent (JS.ToString v)
              +:+ appendedQuery rest).
Proof.
  intros this k v rest config Huri Hps Hbg.
  unfold bind, bindObject. rewrite Hps, Hbg, Huri.
  cbn [length Nat.eqb andb negb bindObject_loop fst].
  unfold bindGetParameters. cbn [bindGetParameters_loop String.eqb].
  rewrite bindGetParameters_loop_nonempty by discriminate.
  by rewrite !append_assoc.
Qed.

Lemma X10_empty_template_gets_the_question_mark_witness :
  fst (bind {| uri := ""; parameters := [];
               configuration := exampleConfiguration true |}
         (VObj [("q", VStr "a b"); ("page", VNum 2)]) None)
  = Ok "?q=a%20b&page=2".
Proof.
  exact (X10_empty_template_gets_the_question_mark
           {| uri := ""; parameters := [];
              configuration := exampleConfiguration true |}
           "q" (VStr "a b") [("page", VNum 2)] None eq_refl eq_refl eq_refl).
Defined.

Lemma bindObject_loop_agree (this : UriParameterBinder)
    (ps : UriParameterCollection) (uri : string) (obj obj' : object)
    (config : Configuration) :
  (forall p, p ∈ ps -> JS.get obj (name p) = JS.get obj' (name p)) ->
  fst (bindObject_loop this ps uri obj config)
  = fst (bindObject_loop this ps uri obj' config).
Proof.
  revert uri obj obj'; induction ps as [|p ps IH]; intros uri obj obj' Hag;
    cbn [bindObject_loop]; [reflexivity|].
  rewrite <- (Hag p) by apply list_elem_of_here.
  destruct (bindParameter this uri (ByRef p) (JS.get obj (name p)) config);
    [|reflexivity].
  apply IH. intros q Hq.
  destruct (String.eqb_spec (name p) (name q)) as [Heq|Hne].
  - rewrite <- Heq. by rewrite !get_delete_eq.
  - rewrite !get_delete_ne by assumption.
    apply Hag. by apply list_elem_of_further.
Qed.

(** X11: without [bindGetParameters], only the keys that name a
    parameter count: two objects on which the name of every parameter
    reads the same value (a value of the object's own, or the member of
    [Object.prototype] of that name) are bound to the same url, or fail
    alike. *)
Theorem X11_only_the_named_keys_count :
  forall (this : UriParameterBinder) (obj obj' : object)
         (config : option Configuration),
    Config.bindGetParameters (effective this config) = false ->
    (forall p, p ∈ parameters this ->
               JS.get obj (name p) = JS.get obj' (name p)) ->
    fst (bind this (VObj obj) config) = fst (bind this (VObj obj') config).
Proof.
  intros this obj obj' config Hbg Hag. unfold bind.
  destruct ((length (parameters this) =? 0)
            && negb (Config.bindGetParameters (effective this config)));
    [reflexivity|].
  pose proof (fst_bindObject this (uri this) obj (effective this config)) as H1.
  pose proof (fst_bindObject this (uri this) obj' (effective this config)) as H2.
  destruct (bindObject this (uri this) obj (effective this config)) as [r1 o1].
  destruct (bindObject this (uri this) obj' (effective this config)) as [r2 o2].
  cbn [fst] in *. rewrite H1, H2, Hbg.
  by rewrite (bindObject_loop_agree this _ _ obj obj' _ Hag).
Qed.

Lemma X11_only_the_named_keys_count_witness :
  fst (bind {| uri := "/users/{id}";
               parameters := [{| name := "id"; required := true;
                                 placeholder := "{id}" |}];
               configuration := exampleConfiguration false |}
         (VObj [("id", VNum 42); ("page", VNum 2)]) None)
  = fst (bind {| uri := "/users/{id}";
                 parameters := [{| name := "id"; required := true;
                                   placeholder := "{id}" |}];
                 configuration := exampleConfiguration false |}
           (VObj [("sort", VStr "asc"); ("id", VNum 42)]) None).
Proof.
  apply X11_only_the_named_keys_count; [reflexivity|].
  intros p Hp. apply list_elem_of_singleton in Hp. subst p. reflexivity.
Defined.

End Configurations.

Section QueryComposition.

Import Binder.

(** X20: the query string is made of the keys the placeholders left.
    When binding an object without [bindGetParameters] gives a url that
    is not empty, binding it with [bindGetParameters] gives that url
    followed by one [&key=value] pair for every key that names no
    parameter, in enumeration order; a key that names a parameter never
    shows up in the query. *)
Theorem X20_query_holds_the_keys_that_name_no_parameter :
  forall (this : UriParameterBinder) (obj : object) (c0 c1 : Configuration)
         (u : string),
    Config.bindGetParameters c0 = false ->
    Config.bindGetParameters c1 = true ->
    fst (bind this (VObj obj) (Some c0)) = Ok u -> u <> "" ->
    bind this (VObj obj) (Some c1)
    = (Ok (u +:+ appendedQuery
                   (deleteAll obj (map name (parameters this)))),
       VObj (deleteAll obj (map name (parameters this)))).
Proof.
  intros this obj c0 c1 u H0 H1 Hu Hne.
  assert (Hloop : fst (bindObject_loop this (parameters this) (uri this) obj c1)
                  = Ok u).
  { revert Hu. unfold bind. cbn [effective]. rewrite H0. cbn [negb].
    rewrite andb_true_r.
    destruct (length (parameters this) =? 0) eqn:Hlen.
    - apply Nat.eqb_eq, nil_length_inv in Hlen. rewrite Hlen. done.
    - pose proof (fst_bindObject this (uri this) obj c0) as Hf.
      destruct (bindObject this (uri this) obj c0) as [r o].
      cbn [fst] in *. intros ->. rewrite H0 in Hf.
      rewrite (bindObject_loop_config this _ _ _ c1 c0).
      by destruct (fst (bindObject_loop this (parameters this) (uri this)
                          obj c0)). }
  assert (Hobj : snd (bindObject_loop this (parameters this) (uri this) obj c1)
                 = deleteAll obj (map name (parameters this))).
  { rewrite snd_bindObject_loop.
    by rewrite (proj1 (bindObject_loop_ok_iff this _ _ _ _)
                  (ex_intro _ u Hloop)). }
  unfold bind, bindObject. cbn [effective]. rewrite H1. cbn [negb].
  rewrite andb_false_r.
  destruct (bindObject_loop this (parameters this) (uri this) obj c1)
    as [r o]. cbn [fst snd] in Hloop, Hobj. subst r o.
  unfold bindGetParameters.
  by rewrite bindGetParameters_loop_nonempty.
Qed.

Lemma X20_query_holds_the_keys_that_name_no_parameter_witness :
  bind {| uri := "/users/{id}";
          parameters := [{| name := "id"; required := true;
                            placeholder := "{id}" |}];
          configuration := exampleConfiguration false |}
    (VObj [("page", VNum 2); ("id", VNum 42); ("q", VStr "a b")])
    (Some (exampleConfiguration true))
  = (Ok "/users/42&page=2&q=a%20b",
     VObj [("page", VNum 2); ("q", VStr "a b")]).
Proof.
  exact (X20_query_holds_the_keys_that_name_no_parameter
           {| uri := "/users/{id}";
              parameters := [{| name := "id"; required := true;
                                placeholder := "{id}" |}];
              configuration := exampleConfiguration false |}
           [("page", VNum 2); ("id", VNum 42); ("q", VStr "a b")]
           (exampleConfiguration false) (exampleConfiguration true)
           "/users/42" eq_refl eq_refl eq_refl ltac:(discriminate)).
Defined.

End QueryComposition.

(* ===================================================================== *)
(** ** More on the router                                                 *)
(* ===================================================================== *)

Section RouterQueries.

Import Router.

Lemma fold_flag (s : Router) (u : string) (ms : list RequestMethod) (acc : bool) :
  fold_left
    (fun hasRoute m =>
       if bool_decide (is_Some (signatures s !! routeSignature m u))
       then true else hasRoute) ms acc = true
  <-> acc = true
      \/ exists m, m ∈ ms /\ is_Some (signatures s !! routeSignature m u).
Proof.
  revert acc; induction ms as [|m ms IH]; intros acc; cbn [fold_left].
  - split; [auto|]. intros [H|(m & Hm & _)]; [exact H|inversion Hm].
  - rewrite IH. split.
    + intros [H|(m' & Hm' & Hs)].
      * destruct (bool_decide (is_Some (signatures s !! routeSignature m u)))
          eqn:Hb; [|by left].
        right. exists m. split; [apply list_elem_of_here|].
        by apply bool_decide_eq_true in Hb.
      * right. exists m'. split; [by apply list_elem_of_further|exact Hs].
    + intros [->|(m' & Hm' & Hs)].
      * left. by destruct (bool_decide _).
      * apply elem_of_cons in Hm' as [->|Hm'].
        -- left. by rewrite bool_decide_eq_true_2.
        -- right. eauto.
Qed.

Lemma hasRouteWithUrl_true (s : Router) (u : string) (ms : list RequestMethod) :
  hasRouteWithUrl s u ms = true
  <-> exists m, (ms = [] \/ m ∈ ms)
                /\ is_Some (signatures s !! routeSignature m u).
Proof.
  unfold hasRouteWithUrl. rewrite fold_flag.
  destruct ms as [|m0 ms]; cbn [length Nat.eqb].
  - split.
    + intros [?|(m & _ & Hs)]; [done|]. exists m. auto.
    + intros (m & _ & Hs). right. exists m. split; [|exact Hs].
      unfold allMethods. destruct m; set_solver.
  - split.
    + intros [?|(m & Hm & Hs)]; [done|]. exists m. auto.
    + intros (m & [?|Hm] & Hs); [done|]. right. eauto.
Qed.

(** X13: what [hasRouteWithUrl] answers.  It is true exactly when the
    signature of the url under one of the given methods (any method,
    when none is given) is in [signatures]; so it is true for the url
    and method of a registration that has just succeeded, as
    [hasRouteWithName] is for its name. *)
Theorem X13_hasRouteWithUrl_reads_the_signatures :
  (forall (s : Router) (u : string) (ms : list RequestMethod),
      hasRouteWithUrl s u ms = true
      <-> exists m, (ms = [] \/ m ∈ ms)
                    /\ is_Some (signatures s !! routeSignature m u))
  /\ (forall (s : Router) (n : string) (m : RequestMethod) (u : string),
        fst (register s n m u) = Ok tt ->
        hasRouteWithUrl (snd (register s n m u)) (prefixedUrl s u) [m] = true
        /\ hasRouteWithUrl (snd (register s n m u)) (prefixedUrl s u) [] = true
        /\ hasRouteWithName (snd (register s n m u)) n = true).
Proof.
  split; [apply hasRouteWithUrl_true|].
  intros s n m u.
  destruct (register_cases s n m u)
    as [(_ & _ & ->)|[(old & _ & _ & ->)|(_ & _ & ->)]];
    cbn [fst snd]; try discriminate.
  intros _.
  assert (Hs : is_Some (signatures
                          (insertRoute
                             (with_heap
                                (heap s ++ [{| name := n; method := m;
                                               url := prefixedUrl s u |}]) s)
                             (signatureOf {| name := n; method := m;
                                             url := prefixedUrl s u |})
                             {| name := n; method := m;
                                url := prefixedUrl s u |}
                             (length (heap s)))
                        !! routeSignature m (prefixedUrl s u))).
  { cbn [signatures insertRoute]. unfold signatureOf. cbn [method url].
    rewrite lookup_insert_eq. eauto. }
  split; [|split].
  - apply hasRouteWithUrl_true. exists m. split; [right; set_solver|exact Hs].
  - apply hasRouteWithUrl_true. exists m. split; [by left|exact Hs].
  - unfold hasRouteWithName. cbn [routes insertRoute name].
    apply bool_decide_eq_true. rewrite lookup_insert_eq. eauto.
Qed.

Lemma X13_hasRouteWithUrl_reads_the_signatures_witness :
  hasRouteWithUrl (snd (register (new defaults []) "ping" GET "/ping"))
    "/ping" [] = true.
Proof.
  apply (proj2 X13_hasRouteWithUrl_reads_the_signatures
           (new defaults []) "ping" GET "/ping" eq_refl).
Defined.

End RouterQueries.

Section RouterHistory.

Import Router.

Lemma grows_refl (s : Router) : grows s s.
Proof. split; auto. Qed.

Lemma grows_registerRoute (s0 s : Router) (l : ref) :
  grows s0 s -> grows s0 (snd (registerRoute s l)).
Proof.
  intros [Hr Hs].
  destruct (registerRoute_registered s l); cbn [snd]; try (by split).
  split; cbn [routes signatures insertRoute with_heap].
  - intros n Hn. apply lookup_insert_is_Some'. right. by apply Hr.
  - intros sig Hsig. apply lookup_insert_is_Some'. right. by apply Hs.
Qed.

(** X14: nothing is ever unregistered.  Whatever calls follow, with
    whatever outcome, a name that [hasRouteWithName] knows stays known,
    and a url that [hasRouteWithUrl] knows stays known. *)
Theorem X14_registrations_are_never_removed :
  forall (c : script) (s : Router),
    (forall n, hasRouteWithName s n = true ->
               hasRouteWithName (snd (exec c s)) n = true)
    /\ (forall u ms, hasRouteWithUrl s u ms = true ->
                     hasRouteWithUrl (snd (exec c s)) u ms = true).
Proof.
  intros c s.
  assert (Hg : grows s (snd (exec c s))).
  { apply (exec_preserves (grows s)).
    - intros s' p H. exact H.
    - intros s' r H. exact H.
    - intros s' l H. by apply grows_registerRoute.
    - apply grows_refl. }
  destruct Hg as [Hr Hs]. split.
  - intros n Hn. unfold hasRouteWithName in *.
    apply bool_decide_eq_true. apply Hr.
    by apply bool_decide_eq_true in Hn.
  - intros u ms Hu. apply hasRouteWithUrl_true.
    apply hasRouteWithUrl_true in Hu as (m & Hm & Hsig).
    exists m. split; [exact Hm|]. by apply Hs.
Qed.

Lemma X14_registrations_are_never_removed_witness :
  hasRouteWithName
    (snd (exec (Register "a" GET "/x" (Register "a" POST "/y" Done))
            (snd (register (new defaults []) "a" GET "/x")))) "a" = true.
Proof.
  apply (proj1 (X14_registrations_are_never_removed
                  (Register "a" GET "/x" (Register "a" POST "/y" Done))
                  (snd (register (new defaults []) "a" GET "/x")))).
  reflexivity.
Defined.

Lemma kept_registerRoute (n : string) (l : ref) (r : Route) (s : Router)
    (l0 : ref) :
  kept n l r s -> kept n l r (snd (registerRoute s l0)).
Proof.
  intros (Himm & Hc & Hn & Hl).
  destruct (registerRoute_frame s l0) as [Hcfg _].
  pose proof (consistent_registerRoute s l0 Hc) as Hc'.
  split; [congruence|]. split; [exact Hc'|].
  unfold resolves, route, deref in *.
  destruct Hc as (Ha & _).
  destruct (registerRoute_registered s l0)
    as [H0|route0 H0 Hi Hn0|route0 old H0 Hfree _ Hsig|route0 H0 Hfree Hsig];
    cbn [snd routes heap insertRoute with_heap] in *; try done.
  - specialize (Hfree Himm).
    split; [exact Hn|].
    rewrite list_lookup_insert_ne; [exact Hl|].
    eapply stored_elsewhere; eauto.
  - specialize (Hfree Himm).
    rewrite name_prefixed.
    split.
    + rewrite lookup_insert_ne; [exact Hn|]. congruence.
    + rewrite list_lookup_insert_ne; [exact Hl|].
      eapply stored_elsewhere; eauto.
Qed.

Lemma kept_alloc (n : string) (l : ref) (r r0 : Route) (s : Router) :
  kept n l r s -> kept n l r (with_heap (heap s ++ [r0]) s).
Proof.
  intros (Himm & Hc & Hn & Hl).
  split; [exact Himm|]. split; [by apply consistent_alloc|].
  split; [exact Hn|]. unfold deref in *. cbn [heap with_heap].
  by apply lookup_app_l_Some.
Qed.

(** X15: what [immutable: true] gives.  [registerRoute] on a route
    object whose name is taken throws the "already defined and
    immutable" error before it writes anything: the router and the route
    object are as they were, whatever the method and url of the object
    and whatever prefix is set; and in every state such a router
    reaches, a registered name resolves to the same route object,
    unchanged, after any further calls. *)
Theorem X15_immutable_routes_stay_as_registered :
  (forall (s : Router) (l : ref) (route0 : Route),
      heap s !! l = Some route0 ->
      immutable (config s) = true -> is_Some (routes s !! name route0) ->
      registerRoute s l
      = (Throw (RegistrationError (immutable_message (name route0))), s))
  /\ (forall (cfg : ConfigurationInterface) (s : Router) (c : script)
             (n : string) (l : ref) (r : Route),
        immutable cfg = true -> reachable cfg s ->
        route s n = Some l -> deref s l = Some r ->
        route (snd (exec c s)) n = Some l
        /\ deref (snd (exec c s)) l = Some r).
Proof.
  split.
  - exact registerRoute_immutable.
  - intros cfg s c n l r Himm Hs Hn Hl.
    assert (Hk : kept n l r (snd (exec c s))).
    { apply (exec_preserves (kept n l r)).
      - intros s' p H. exact H.
      - intros s' r0 H. by apply kept_alloc.
      - intros s' l0 H. by apply kept_registerRoute.
      - split; [|split; [|split]]; try done.
        + by rewrite (reachable_config cfg s Hs).
        + by apply (reachable_consistent cfg). }
    destruct Hk as (_ & _ & H). exact H.
Qed.

Lemma X15_immutable_routes_stay_as_registered_witness :
  let cfg := {| immutable := true; duplicates := false |} in
  let other := {| name := "a"; method := POST; url := "/y" |} in
  let s := snd (register (new cfg [other]) "a" GET "/x") in
  registerRoute s 0
  = (Throw (RegistrationError "Route 'a' is already defined and immutable!"),
     s)
  /\ route (snd (exec (RegisterRoute 0 (Register "b" GET "/z" Done)) s))
       "a" = Some 1.
Proof.
  intros cfg other s. split.
  - apply (proj1 X15_immutable_routes_stay_as_registered s 0 other);
      [reflexivity | reflexivity | by eexists].
  - apply (proj2 X15_immutable_routes_stay_as_registered cfg s
             (RegisterRoute 0 (Register "b" GET "/z" Done))
             "a" 1 {| name := "a"; method := GET; url := "/x" |});
      [reflexivity | | reflexivity | reflexivity].
    exists [other], (Register "a" GET "/x" Done). reflexivity.
Defined.

End RouterHistory.

Section RouterSignatures.

Import Router.




Lemma register_ok_state (s : Router) (n : string) (m : RequestMethod) (u : string) :
  fst (register s n m u) = Ok tt ->
  snd (register s n m u)
  = insertRoute
      (with_heap (heap s ++ [{| name := n; method := m;
                                url := prefixedUrl s u |}]) s)
      (routeSignature m (prefixedUrl s u))
      {| name := n; method := m; url := prefixedUrl s u |}
      (length (heap s)).
Proof.
  destruct (register_cases s n m u)
    as [(_ & _ & ->)|[(old & _ & _ & ->)|(_ & _ & ->)]];
    cbn [fst snd]; try discriminate. reflexivity.
Qed.

Lemma register_taken (s : Router) (n2 owner : string) (m : RequestMethod)
    (u : string) :
  immutable (config s) = false -> duplicates (config s) = false ->
  signatures s !! routeSignature m (prefixedUrl s u) = Some owner ->
  fst (register s n2 m u)
  = Throw (RegistrationError (duplicate_message n2 owner)).
Proof.
  intros Himm Hdup Hsig.
  destruct (register_cases s n2 m u)
    as [(Hi & _)|[(old & _ & Hold & ->)|(_ & Hfree & _)]].
  - congruence.
  - unfold signatureOf in Hold. cbn [method url] in Hold.
    rewrite Hsig in Hold. by injection Hold as <-.
  - specialize (Hfree Hdup). unfold signatureOf in Hfree.
    cbn [method url] in Hfree. congruence.
Qed.

(** X17: a url stays taken after its route has moved.  With the default
    options a name can be registered again under another method or url;
    the name then resolves to the new route, but the signature of the
    old one stays in [signatures], so registering the old method and url
    under any name still fails as a duplicate of the moved route. *)
Theorem X17_moved_route_keeps_its_old_url_taken :
  forall (s : Router) (n n2 : string) (m m' : RequestMethod) (u u' : string),
    immutable (config s) = false -> duplicates (config s) = false ->
    fst (register s n m u) = Ok tt ->
    fst (register (snd (register s n m u)) n m' u') = Ok tt ->
    let s2 := snd (register (snd (register s n m u)) n m' u') in
    routeNamed s2 n = Some {| name := n; method := m'; url := prefixedUrl s u' |}
    /\ fst (register s2 n2 m u)
       = Throw (RegistrationError (duplicate_message n2 n)).
Proof.
  intros s n n2 m m' u u' Himm Hdup H1 H2 s2.
  set (s1 := snd (register s n m u)) in *.
  destruct (register_frame s n m u) as [Hc1 Hp1]. fold s1 in Hc1, Hp1.
  destruct (register_frame s1 n m' u') as [Hc2 Hp2]. fold s2 in Hc2, Hp2.
  assert (Hu1 : forall x, prefixedUrl s1 x = prefixedUrl s x)
    by (intros x; unfold prefixedUrl; by rewrite Hp1).
  assert (Hu2 : forall x, prefixedUrl s2 x = prefixedUrl s x)
    by (intros x; unfold prefixedUrl; by rewrite Hp2, Hp1).
  split.
  - subst s2. rewrite (register_stores s1 n m' u' H2). by rewrite Hu1.
  - apply register_taken; [congruence | congruence |].
    rewrite Hu2. subst s2. rewrite (register_ok_state s1 n m' u' H2).
    cbn [signatures insertRoute with_heap name].
    assert (Hsig1 : signatures s1 !! routeSignature m (prefixedUrl s u)
                    = Some n).
    { subst s1. rewrite (register_ok_state s n m u H1).
      cbn [signatures insertRoute with_heap name]. apply lookup_insert_eq. }
    rewrite lookup_insert. destruct (decide _); [reflexivity|exact Hsig1].
Qed.

Lemma X17_moved_route_keeps_its_old_url_taken_witness :
  let s2 := snd (register (snd (register (new defaults []) "a" GET "/x"))
                   "a" GET "/y") in
  routeNamed s2 "a" = Some {| name := "a"; method := GET; url := "/y" |}
  /\ fst (register s2 "b" GET "/x")
     = Throw (RegistrationError (duplicate_message "b" "a")).
Proof.
  exact (X17_moved_route_keeps_its_old_url_taken
           (new defaults []) "a" "b" GET GET "/x" "/y"
           eq_refl eq_refl eq_refl eq_refl).
Defined.

End RouterSignatures.

(* ===================================================================== *)
(** ** More on the registration middleware                                *)
(* ===================================================================== *)

Section MiddlewareMerge.

Import Middleware.

Lemma get_set (o : object) (k k' : string) (v : value) :
  JS.get (JS.set o k v) k' = if String.eqb k k' then v else JS.get o k'.
Proof.
  induction o as [|[k0 v0] o IH]; cbn [JS.set JS.get]; [reflexivity|].
  destruct (String.eqb_spec k0 k) as [->|Hne]; cbn [JS.get].
  - by destruct (String.eqb k k').
  - destruct (String.eqb_spec k0 k') as [->|Hne'].
    + by rewrite (proj2 (String.eqb_neq k k')) by congruence.
    + exact IH.
Qed.

(** [Object.assign] from a source whose keys are distinct: a key of the
    source reads the source's value, any other key reads as before. *)
Lemma get_assign (target source : object) (k : string) :
  NoDup (map fst source) ->
  JS.get (JS.assign target source) k
  = if JS.has source k then JS.get source k else JS.get target k.
Proof.
  unfold JS.assign.
  revert target; induction source as [|[k0 v0] source IH]; intros target Hnd;
    cbn [fold_left fst snd]; [reflexivity|].
  cbn [map fst] in Hnd. apply NoDup_cons in Hnd as [Hk0 Hnd].
  rewrite IH by exact Hnd. unfold JS.has. cbn [existsb fst JS.get].
  rewrite get_set.
  destruct (String.eqb_spec k0 k) as [->|Hne]; cbn [orb]; [|reflexivity].
  assert (Hno : existsb (fun kv => String.eqb (fst kv) k) source = false).
  { apply not_true_iff_false. intros [[k1 v1] [Hin Heq]]%existsb_exists.
    cbn [fst] in Heq. apply String.eqb_eq in Heq. subst k1.
    apply Hk0. apply list_elem_of_fmap. exists (k, v1).
    split; [reflexivity|]. by apply list_elem_of_In. }
  by rewrite Hno.
Qed.

Lemma contents_insert (σ : store) (r r' : ref) (o : object) :
  contents (<[r := o]> σ) r' = if decide (r = r') then o else contents σ r'.
Proof. unfold contents. rewrite lookup_insert. by destruct (decide _). Qed.

(** X18: [apply] without a prefix.  The call always returns; the route
    it returns has the name, method and Uri of the given one and refers
    to the same [extra] object, into which the configured entries have
    been merged: a configured key reads the configured value, any other
    key reads as before; every other object is untouched. *)
Theorem X18_apply_merges_the_configured_extra :
  forall (configuration : RouteRegistrarConfiguration) (route : Route)
         (σ : store),
    prefix configuration = "" ->
    NoDup (map fst (contents σ (extra configuration))) ->
    exists route',
      fst (apply configuration route σ) = Ok route'
      /\ route_name route' = route_name route
      /\ route_method route' = route_method route
      /\ route_uri route' = route_uri route
      /\ route_extra route' = route_extra route
      /\ (forall k,
            JS.get (contents (snd (apply configuration route σ))
                      (route_extra route)) k
            = if JS.has (contents σ (extra configuration)) k
              then JS.get (contents σ (extra configuration)) k
              else JS.get (contents σ (route_extra route)) k)
      /\ (forall r, r <> route_extra route ->
                    contents (snd (apply configuration route σ)) r
                    = contents σ r).
Proof.
  intros configuration route σ Hp Hnd.
  rewrite (apply_without_prefix configuration route σ Hp). cbn [fst snd].
  eexists. split; [reflexivity|]. cbn [route_name route_method route_uri
                                       route_extra].
  repeat split.
  - intros k. rewrite contents_insert.
    destruct (decide _); [|done]. by apply get_assign.
  - intros r Hr. rewrite contents_insert. destruct (decide _); congruence.
Qed.

Lemma X18_apply_merges_the_configured_extra_witness :
  let σ : store :=
    <[0 := [("auth", VBool false); ("tag", VStr "t")]]>
      (<[2 := [("auth", VBool true)]]> ∅) in
  let route :=
    {| route_name := "ping"; route_method := GET;
       route_uri := {| template := "/ping"; uri_parameters := [];
                       uri_configuration := 1 |};
       route_extra := 0 |} in
  exists route',
    fst (apply {| prefix := ""; extra := 2; uris := 3 |} route σ) = Ok route'
    /\ route_name route' = "ping".
Proof.
  intros σ route.
  destruct (X18_apply_merges_the_configured_extra
              {| prefix := ""; extra := 2; uris := 3 |} route σ eq_refl)
    as (route' & H1 & H2 & _).
  - vm_compute. apply NoDup_singleton.
  - exists route'. split; [exact H1 | exact H2].
Defined.

(** X19: [apply] with a prefix.  If the call returns, the route has the
    name and method of the given one, its Uri reads prefix + the given
    Uri, and its [extra] is the given route's object; and whether the
    call returns or throws, the configured [uris] entries have been
    written into the configuration object of the given route's Uri. *)
Theorem X19_apply_prefixes_the_uri :
  forall (configuration : RouteRegistrarConfiguration) (route : Route)
         (σ : store),
    prefix configuration <> "" ->
    (forall route',
        fst (apply configuration route σ) = Ok route' ->
        route_name route' = route_name route
        /\ route_method route' = route_method route
        /\ Uri_toString (route_uri route')
           = prefix configuration +:+ Uri_toString (route_uri route)
        /\ route_extra route' = route_extra route)
    /\ (NoDup (map fst (contents σ (uris configuration))) ->
        route_extra route <> uri_configuration (route_uri route) ->
        forall k,
          JS.get (contents (snd (apply configuration route σ))
                    (uri_configuration (route_uri route))) k
          = if JS.has (contents σ (uris configuration)) k
            then JS.get (contents σ (uris configuration)) k
            else JS.get (contents σ (uri_configuration (route_uri route))) k).
Proof.
  intros configuration route σ Hp.
  assert (Hlen : (0 <? String.length (prefix configuration)) = true).
  { destruct (prefix configuration); [done|reflexivity]. }
  unfold apply, updateUri, Object_assign, newUri. rewrite Hlen.
  destruct (Collection.parseFromUri
              (prefix configuration +:+ Uri_toString (route_uri route)))
    as [ps|e]; cbn [fst snd].
  - split.
    + intros route' [= <-]. done.
    + intros Hnd Hne k. rewrite !contents_insert.
      destruct (decide _) as [Heq|_]; [congruence|].
      destruct (decide _); [|done]. by apply get_assign.
  - split; [discriminate|].
    intros Hnd Hne k. rewrite contents_insert.
    destruct (decide _); [|done]. by apply get_assign.
Qed.

Lemma X19_apply_prefixes_the_uri_witness :
  let σ : store :=
    <[0 := []]> (<[1 := []]> (<[3 := [("prependSlash", VBool true)]]> ∅)) in
  let route :=
    {| route_name := "ping"; route_method := GET;
       route_uri := {| template := "/ping"; uri_parameters := [];
                       uri_configuration := 1 |};
       route_extra := 0 |} in
  JS.get (contents (snd (apply {| prefix := "/api"; extra := 2; uris := 3 |}
                           route σ)) 1) "prependSlash"
  = VBool true.
Proof.
  intros σ route.
  apply (proj2 (X19_apply_prefixes_the_uri
                  {| prefix := "/api"; extra := 2; uris := 3 |} route σ
                  ltac:(discriminate))).
  - vm_compute. apply NoDup_singleton.
  - discriminate.
Defined.

End MiddlewareMerge.
